(** * Retro Image Lab front end: operation normalizer and request sequencer

    A shallow embedding of [src/image_processing_frontend/src/App.js]:
    the [parsedOps] normalizer, the [updateOps] field patch and the
    [fetchImages] / [doUpload] / [doProcess] flows, together with the
    part of the JavaScript runtime these functions call.

    Conventions of the embedding.
    - A JavaScript number is an IEEE 754 binary64 value, modelled by the
      standard library's [spec_float] at precision 53 and maximal
      exponent 1024.
    - A JavaScript string is a [string]: each [ascii] stands for one
      UTF-16 code unit below 256.
    - A JavaScript object used as a map is a [gmap] over its own
      property names. *)

From Stdlib Require Import ZArith Bool Ascii String List.
From Stdlib Require Import Floats.SpecFloat.
From stdpp Require Import base option gmap strings pretty list fin_maps.

Local Open Scope string_scope.
Local Open Scope Z_scope.

(** ** JavaScript numbers *)

Abbreviation number := spec_float.

Definition prec : Z := 53.
Definition emax : Z := 1024.

Definition NaN : number := S754_nan.
Definition Infinity : number := S754_infinity false.
Definition zero : number := S754_zero false.
(** The literal [1]: mantissa [2^52], exponent [-52]. *)
Definition one : number := S754_finite false 4503599627370496 (-52).

(** [Number.isFinite(n)] *)
Definition Number_isFinite (n : number) : bool :=
  match n with
  | S754_zero _ | S754_finite _ _ _ => true
  | S754_infinity _ | S754_nan => false
  end.

(** [Number.isNaN(n)] *)
Definition Number_isNaN (n : number) : bool :=
  match n with
  | S754_nan => true
  | _ => false
  end.

(** [a > b], [a >= b] and [a !== b] on numbers. *)
Definition gt (a b : number) : bool := SFltb b a.
Definition ge (a b : number) : bool := SFleb b a.
Definition strict_ne (a b : number) : bool := negb (SFeqb a b).

(** [ToBoolean] of a number: [NaN], [+0] and [-0] are falsy. *)
Definition number_truthy (n : number) : bool :=
  match n with
  | S754_nan | S754_zero _ => false
  | _ => true
  end.

(** The binary64 value of a non-zero integer below [2^53] in magnitude:
    the mantissa is shifted up to 53 bits. *)
Definition number_of_pos (s : bool) (p : positive) : number :=
  let d := Zpos (digits2_pos p) in
  match prec - d with
  | Zpos k => S754_finite s (Pos.iter xO p k) (d - prec)
  | _ => S754_finite s p 0
  end.

(** [Math.floor(n)].  A finite value with a non-negative exponent is an
    integer already; otherwise the signed mantissa is shifted right,
    which rounds towards minus infinity (the result has fewer than 53
    bits).  A positive value below [1] gives [+0]; a negative value never
    gives zero. *)
Definition Math_floor (n : number) : number :=
  match n with
  | S754_finite s m e =>
      if 0 <=? e then n
      else match Z.shiftr (cond_Zopp s (Zpos m)) (- e) with
           | Z0 => S754_zero s
           | Zpos p => number_of_pos false p
           | Zneg p => number_of_pos true p
           end
  | _ => n
  end.

(** The floor of a finite number as a mathematical integer, and the
    integer a finite number is, if it is one. *)
Definition floor_value (n : number) : option Z :=
  match n with
  | S754_zero _ => Some 0
  | S754_finite s m e =>
      Some (if 0 <=? e then cond_Zopp s (Zpos m) * 2 ^ e
            else cond_Zopp s (Zpos m) / 2 ^ (- e))
  | _ => None
  end.

Definition integer_value (n : number) : option Z :=
  match n with
  | S754_zero _ => Some 0
  | S754_finite s m e =>
      if 0 <=? e then Some (cond_Zopp s (Zpos m) * 2 ^ e)
      else if Zpos m mod 2 ^ (- e) =? 0
           then Some (cond_Zopp s (Zpos m / 2 ^ (- e)))
           else None
  | _ => None
  end.

(** ** [Number(text)]: the runtime's StringToNumber *)

Definition is_white_space (c : ascii) : bool :=
  let n := N_of_ascii c in
  ((9 <=? n) && (n <=? 13) || (n =? 32) || (n =? 160))%N.

Fixpoint skip_white_space (l : list ascii) : list ascii :=
  match l with
  | c :: l' => if is_white_space c then skip_white_space l' else l
  | [] => []
  end.

Definition trim (l : list ascii) : list ascii :=
  rev (skip_white_space (rev (skip_white_space l))).

(** The value of a digit in the given radix (2, 8, 10 or 16). *)
Definition digit_value (radix : N) (c : ascii) : option N :=
  let n := N_of_ascii c in
  let v := (if (48 <=? n) && (n <=? 57) then Some (n - 48)
            else if (97 <=? n) && (n <=? 102) then Some (n - 87)
            else if (65 <=? n) && (n <=? 70) then Some (n - 55)
            else None)%N in
  match v with
  | Some d => if (d <? radix)%N then Some d else None
  | None => None
  end.

(** Reads the longest prefix of digits: its value (continuing from
    [acc]), the number of digits read, and the rest of the input. *)
Fixpoint read_digits (radix : N) (l : list ascii) (acc : N) (count : Z)
  : N * Z * list ascii :=
  match l with
  | c :: l' =>
      match digit_value radix c with
      | Some d => read_digits radix l' (acc * radix + d)%N (count + 1)
      | None => (acc, count, l)
      end
  | [] => (acc, count, [])
  end.

(** The mathematical value of a literal. *)
Inductive literal_value :=
| MV_infinity
| MV_scaled (m : N) (e10 : Z).   (* m * 10^e10 *)

(** ExponentPart, optional, followed by the end of the text. *)
Definition exponent_part (l : list ascii) : option Z :=
  match l with
  | [] => Some 0
  | c :: l1 =>
      if (c =? "e")%char || (c =? "E")%char then
        let '(neg, l2) :=
          match l1 with
          | "-"%char :: l2 => (true, l2)
          | "+"%char :: l2 => (false, l2)
          | _ => (false, l1)
          end in
        match read_digits 10 l2 0 0 with
        | (v, count, []) =>
            if 0 <? count then Some (cond_Zopp neg (Z.of_N v)) else None
        | _ => None
        end
      else None
  end.

(** StrUnsignedDecimalLiteral *)
Definition unsigned_decimal (l : list ascii) : option literal_value :=
  if decide (l = list_ascii_of_string "Infinity") then Some MV_infinity
  else
    let '(ip, ni, l1) := read_digits 10 l 0 0 in
    match l1 with
    | "."%char :: l2 =>
        let '(m, nf, l3) := read_digits 10 l2 ip 0 in
        if 0 <? ni + nf then
          match exponent_part l3 with
          | Some e => Some (MV_scaled m (e - nf))
          | None => None
          end
        else None
    | _ =>
        if 0 <? ni then
          match exponent_part l1 with
          | Some e => Some (MV_scaled ip e)
          | None => None
          end
        else None
    end.

(** NonDecimalIntegerLiteral: [0x], [0o] or [0b] and at least one digit. *)
Definition non_decimal (l : list ascii) : option literal_value :=
  match l with
  | "0"%char :: c :: l' =>
      let radix :=
        (if (c =? "x") || (c =? "X") then Some 16%N
         else if (c =? "o") || (c =? "O") then Some 8%N
         else if (c =? "b") || (c =? "B") then Some 2%N
         else None)%char in
      match radix with
      | Some r =>
          match read_digits r l' 0 0 with
          | (v, count, []) => if 0 <? count then Some (MV_scaled v 0) else None
          | _ => None
          end
      | None => None
      end
  | _ => None
  end.

(** The binary64 value nearest to [p / q], ties to even: the quotient is
    taken with enough bits and a record of the remainder, then rounded.
    The exact value of the literal is rounded, whatever its number of
    digits. *)
Definition round_ratio (s : bool) (p q : positive) : number :=
  let '(mz, ez, lz) := SFdiv_core_binary prec emax (Zpos p) 0 (Zpos q) 0 in
  binary_round_aux prec emax s mz ez lz.

Definition number_of_literal (s : bool) (v : literal_value) : number :=
  match v with
  | MV_infinity => S754_infinity s
  | MV_scaled N0 _ => S754_zero s
  | MV_scaled (Npos m) e10 =>
      match e10 with
      | Zneg k => round_ratio s m (Pos.pow 10 k)
      | Z0 => round_ratio s m 1
      | Zpos k => round_ratio s (m * Pos.pow 10 k) 1
      end
  end.

(** [Number(text)] for a string argument. *)
Definition Number (text : string) : number :=
  match trim (list_ascii_of_string text) with
  | [] => zero
  | l =>
      match non_decimal l with
      | Some v => number_of_literal false v
      | None =>
          let '(s, l') :=
            match l with
            | "-"%char :: l' => (true, l')
            | "+"%char :: l' => (false, l')
            | _ => (false, l)
            end in
          match unsigned_decimal l' with
          | Some v => number_of_literal s v
          | None => NaN
          end
      end
  end.


(** ** Raw form state *)

Module Resize.
Record t := { width : string; height : string }.
End Resize.

Module Crop.
Record t := { x : string; y : string; width : string; height : string }.
End Crop.

Module Blur.
Record t := { radius : string }.
End Blur.

(** The [ops] state of the form, of the shape of [initialOps]. *)
Record Ops := {
  resize : Resize.t;
  crop : Crop.t;
  grayscale : bool;
  sepia : bool;
  blur : Blur.t
}.

Definition initialOps : Ops := {|
  resize := {| Resize.width := ""; Resize.height := "" |};
  crop := {| Crop.x := ""; Crop.y := ""; Crop.width := ""; Crop.height := "" |};
  grayscale := false;
  sepia := false;
  blur := {| Blur.radius := "" |}
|}.

(** ** The normalized operation set *)

(** The value stored under one key of the object [parsedOps] builds. *)
Inductive operation :=
| Flag (value : bool)                        (* grayscale: boolean *)
| BlurOp (radius : number)                   (* blur: { radius } *)
| ResizeOp (width height : number)           (* resize: { width, height } *)
| CropOp (x y width height : number)         (* crop: { x, y, width, height } *)
| FactorOp (factor : number).                (* brightness, contrast: { factor } *)

(** [toInt] and [toNonNegInt]; [None] is JavaScript's [null]. *)
Definition toInt (v : string) : option number :=
  let n := Number v in
  if Number_isFinite n && gt n zero then Some (Math_floor n) else None.

Definition toNonNegInt (v : string) : option number :=
  let n := Number v in
  if Number_isFinite n && ge n zero then Some (Math_floor n) else None.

(** [ToBoolean] of a value that is [null] or a number. *)
Definition truthy (v : option number) : bool :=
  match v with
  | Some n => number_truthy n
  | None => false
  end.

(** The body of the [useMemo] callback, as a function of its three
    dependencies. *)
Definition parsedOps (ops : Ops) (brightness contrast : string)
  : gmap string operation :=
  let o : gmap string operation := {[ "grayscale" := Flag (grayscale ops) ]} in
  (* Blur *)
  let r := Number (Blur.radius (blur ops)) in
  let o := if negb (Number_isNaN r) && gt r zero
           then <["blur" := BlurOp r]> o else o in
  (* Resize *)
  let rw := toInt (Resize.width (resize ops)) in
  let rh := toInt (Resize.height (resize ops)) in
  let o := match rw, rh with
           | Some w, Some h =>
               if number_truthy w && number_truthy h
               then <["resize" := ResizeOp w h]> o else o
           | _, _ => o
           end in
  (* Crop *)
  let cx := toNonNegInt (Crop.x (crop ops)) in
  let cy := toNonNegInt (Crop.y (crop ops)) in
  let cw := toInt (Crop.width (crop ops)) in
  let ch := toInt (Crop.height (crop ops)) in
  let o := match cx, cy, cw, ch with
           | Some x, Some y, Some w, Some h =>
               if number_truthy w && number_truthy h
               then <["crop" := CropOp x y w h]> o else o
           | _, _, _, _ => o
           end in
  (* Brightness/Contrast *)
  let bf := Number brightness in
  let o := if negb (Number_isNaN bf) && gt bf zero && strict_ne bf one
           then <["brightness" := FactorOp bf]> o else o in
  let cf := Number contrast in
  let o := if negb (Number_isNaN cf) && gt cf zero && strict_ne cf one
           then <["contrast" := FactorOp cf]> o else o in
  o.

Definition with_resize (w h : string) (ops : Ops) : Ops :=
  {| resize := {| Resize.width := w; Resize.height := h |};
     crop := crop ops; grayscale := grayscale ops; sepia := sepia ops;
     blur := blur ops |}.

Definition with_crop (x y w h : string) (ops : Ops) : Ops :=
  {| resize := resize ops;
     crop := {| Crop.x := x; Crop.y := y; Crop.width := w; Crop.height := h |};
     grayscale := grayscale ops; sepia := sepia ops; blur := blur ops |}.

Definition with_sepia (b : bool) (ops : Ops) : Ops :=
  {| resize := resize ops; crop := crop ops; grayscale := grayscale ops;
     sepia := b; blur := blur ops |}.

(** *** The validation rules, as predicates on the text of a field *)

(** Finite and [> 0]: [toInt] does not answer [null]. *)
Definition finite_positive (v : string) : bool :=
  let n := Number v in Number_isFinite n && gt n zero.

(** Finite and [>= 0]: [toNonNegInt] does not answer [null]. *)
Definition finite_non_negative (v : string) : bool :=
  let n := Number v in Number_isFinite n && ge n zero.

(** Finite, [> 0], and floored to an integer that is not zero: [toInt]
    answers a truthy number. *)
Definition floor_positive (v : string) : bool :=
  let n := Number v in
  Number_isFinite n && gt n zero && number_truthy (Math_floor n).

(** Finite and [>= 1]. *)
Definition finite_at_least_one (v : string) : bool :=
  let n := Number v in Number_isFinite n && ge n one.

(** Not [NaN], [> 0] and not the neutral value [1]. *)
Definition factor_accepted (v : string) : bool :=
  let n := Number v in
  negb (Number_isNaN n) && gt n zero && strict_ne n one.

(** Finite, [> 0] and not the neutral value [1]. *)
Definition finite_factor (v : string) : bool :=
  let n := Number v in
  Number_isFinite n && gt n zero && strict_ne n one.

(** The keys the backend knows. *)
Definition operation_names : gset string :=
  {[ "grayscale"; "blur"; "resize"; "crop"; "brightness"; "contrast" ]}.


(** ** The form state as the object [updateOps] patches *)

(** What a change handler passes as [value]: [e.target.value] is a
    string, [e.target.checked] a boolean. *)
Inductive primitive :=
| Str (s : string)
| Bool (b : bool).

(** A property of the [ops] object: a scalar, or a nested object of
    scalars. *)
Inductive property :=
| Leaf (v : primitive)
| Group (fields : gmap string primitive).

(** [path.split('.')]: never empty. *)
Fixpoint split_dot (path : string) : list string :=
  match path with
  | EmptyString => [""]
  | String c rest =>
      if (c =? ".")%char then "" :: split_dot rest
      else match split_dot rest with
           | head :: tail => String c head :: tail
           | [] => [String c ""]
           end
  end.

(** The own enumerable properties an object spread [{ ...v }] copies:
    those of the object; the code units of a string under their indices;
    nothing for a boolean or [undefined]. *)
Definition spread (v : option property) : gmap string primitive :=
  match v with
  | Some (Group fields) => fields
  | Some (Leaf (Str s)) =>
      list_to_map
        (imap (λ i c, (pretty i, Str (String c ""))) (list_ascii_of_string s))
  | Some (Leaf (Bool _)) | None => ∅
  end.

(** The assignment [o[k] = v] on the own properties of a plain object.
    The name [__proto__], unless it is an own property already, reaches
    the accessor of [Object.prototype] and creates no own property. *)
Definition assign (k : string) (v : property) (o : gmap string property)
  : gmap string property :=
  if bool_decide (k = "__proto__") && bool_decide (o !! k = None)
  then o else <[k := v]> o.

(** The updater [updateOps] hands to [setOps], applied to the previous
    state. *)
Definition updateOps (path : string) (value : primitive)
    (prev : gmap string property) : gmap string property :=
  let next := prev in                              (* { ...prev } *)
  match split_dot path with
  | root :: rest =>                                (* [root, key] *)
      match rest with
      | key :: _ =>
          if bool_decide (key ≠ "")                (* if (key) *)
          then assign root
                 (Group (<[key := value]> (spread (next !! root)))) next
          else assign root (Leaf value) next
      | [] => assign root (Leaf value) next
      end
  | [] => next
  end.

(** The object a typed form state stands for. *)
Definition object_of_ops (ops : Ops) : gmap string property :=
  <["resize" := Group (<["width" := Str (Resize.width (resize ops))]>
                      (<["height" := Str (Resize.height (resize ops))]> ∅))]>
  (<["crop" := Group (<["x" := Str (Crop.x (crop ops))]>
                     (<["y" := Str (Crop.y (crop ops))]>
                     (<["width" := Str (Crop.width (crop ops))]>
                     (<["height" := Str (Crop.height (crop ops))]> ∅))))]>
  (<["grayscale" := Leaf (Bool (grayscale ops))]>
  (<["sepia" := Leaf (Bool (sepia ops))]>
  (<["blur" := Group (<["radius" := Str (Blur.radius (blur ops))]> ∅)]> ∅)))).

(** A path segment holds no dot. *)
Definition dotless (s : string) : bool :=
  forallb (λ c, negb (c =? ".")%char) (list_ascii_of_string s).

Definition with_grayscale (b : bool) (ops : Ops) : Ops :=
  {| resize := resize ops; crop := crop ops; grayscale := b;
     sepia := sepia ops; blur := blur ops |}.

Definition with_blur (r : string) (ops : Ops) : Ops :=
  {| resize := resize ops; crop := crop ops; grayscale := grayscale ops;
     sepia := sepia ops; blur := {| Blur.radius := r |} |}.

(** ** Values, errors and the backend *)

#[local] Set Warnings "-register-all".

(** A JavaScript value that JSON can carry, or [undefined]. An object is
    the list of its own properties; the first binding of a name counts. *)
Inductive value :=
| VUndefined
| VNull
| VBool (b : bool)
| VNumber (n : number)
| VString (s : string)
| VArray (items : list value)
| VObject (props : list (string * value)).

(** An [Error] object. *)
Record Error := { name : string; message : string }.

(** [new Error(text)] and the engine's [TypeError]s (V8's wording). *)
Definition new_Error (text : string) : Error :=
  {| name := "Error"; message := text |}.

Definition TypeError_read (of_what key : string) : Error :=
  {| name := "TypeError";
     message := "Cannot read properties of " +:+ of_what
                +:+ " (reading '" +:+ key +:+ "')" |}.

Definition TypeError_convert : Error :=
  {| name := "TypeError";
     message := "Cannot convert object to primitive value" |}.

(** [String(e.message || e)] for an [Error] object [e]:
    [Error.prototype.toString] answers the name when the message is
    empty. *)
Definition error_text (e : Error) : string :=
  if bool_decide (message e = "") then name e else message e.

(** [ToBoolean] *)
Definition ToBoolean (v : value) : bool :=
  match v with
  | VUndefined | VNull => false
  | VBool b => b
  | VNumber n => number_truthy n
  | VString s => bool_decide (s ≠ "")
  | VArray _ | VObject _ => true
  end.

(** The own property [key] of an object. *)
Fixpoint own_property (props : list (string * value)) (key : string)
  : option value :=
  match props with
  | (k, v) :: rest => if bool_decide (k = key) then Some v
                      else own_property rest key
  | [] => None
  end.

(** The length of a string or array as a number (exact below [2^53]). *)
Definition number_of_length (n : nat) : number :=
  match N.of_nat n with
  | N0 => zero
  | Npos p => number_of_pos false p
  end.

(** The three property reads of the flows. *)

(** [v.length] *)
Definition get_length (v : value) : Error + value :=
  match v with
  | VUndefined => inl (TypeError_read "undefined" "length")
  | VNull => inl (TypeError_read "null" "length")
  | VString s => inr (VNumber (number_of_length (String.length s)))
  | VArray items => inr (VNumber (number_of_length (List.length items)))
  | VObject props => inr (default VUndefined (own_property props "length"))
  | VBool _ | VNumber _ => inr VUndefined
  end.

(** [v[0]] *)
Definition get_first (v : value) : Error + value :=
  match v with
  | VUndefined => inl (TypeError_read "undefined" "0")
  | VNull => inl (TypeError_read "null" "0")
  | VString s => inr (match s with
                      | String c _ => VString (String c "")
                      | EmptyString => VUndefined
                      end)
  | VArray items => inr (default VUndefined (head items))
  | VObject props => inr (default VUndefined (own_property props "0"))
  | VBool _ | VNumber _ => inr VUndefined
  end.

(** [v.key] for a name that no built-in prototype defines
    ([image_id], [detail]). *)
Definition get_named (key : string) (v : value) : Error + value :=
  match v with
  | VUndefined => inl (TypeError_read "undefined" key)
  | VNull => inl (TypeError_read "null" key)
  | VObject props => inr (default VUndefined (own_property props key))
  | VBool _ | VNumber _ | VString _ | VArray _ => inr VUndefined
  end.

(** A selected file. *)
Record File := { file_name : string; file_size : N }.

(** The requests the client sends. *)
Inductive Request :=
| GET_images                                  (* GET /images?limit=100 *)
| POST_upload (file : File)                   (* POST /images/upload *)
| POST_process (image_id : value)             (* POST /images/process *)
               (operations : gmap string operation).

(** A response: its status, and what [res.json()] settles to. *)
Record Response := { status : N; json : Error + value }.

(** [res.ok] *)
Definition ok (res : Response) : bool :=
  ((200 <=? status res) && (status res <=? 299))%N.

(** ** Session state *)

Record Session := {
  uploading : bool;
  processing : bool;
  error : string;
  notice : string;
  file : option File;
  images : value;
  selectedImageId : value;
  ops : Ops;
  brightness : string;
  contrast : string
}.

Definition initialSession : Session := {|
  uploading := false; processing := false; error := ""; notice := "";
  file := None; images := VArray []; selectedImageId := VString "";
  ops := initialOps; brightness := "1"; contrast := "1"
|}.

(** The state setters. *)
Definition setUploading (b : bool) (s : Session) : Session :=
  {| uploading := b; processing := processing s; error := error s;
     notice := notice s; file := file s; images := images s;
     selectedImageId := selectedImageId s; ops := ops s;
     brightness := brightness s; contrast := contrast s |}.

Definition setProcessing (b : bool) (s : Session) : Session :=
  {| uploading := uploading s; processing := b; error := error s;
     notice := notice s; file := file s; images := images s;
     selectedImageId := selectedImageId s; ops := ops s;
     brightness := brightness s; contrast := contrast s |}.

Definition setError (text : string) (s : Session) : Session :=
  {| uploading := uploading s; processing := processing s; error := text;
     notice := notice s; file := file s; images := images s;
     selectedImageId := selectedImageId s; ops := ops s;
     brightness := brightness s; contrast := contrast s |}.

Definition setNotice (text : string) (s : Session) : Session :=
  {| uploading := uploading s; processing := processing s; error := error s;
     notice := text; file := file s; images := images s;
     selectedImageId := selectedImageId s; ops := ops s;
     brightness := brightness s; contrast := contrast s |}.

Definition setFile (f : option File) (s : Session) : Session :=
  {| uploading := uploading s; processing := processing s; error := error s;
     notice := notice s; file := f; images := images s;
     selectedImageId := selectedImageId s; ops := ops s;
     brightness := brightness s; contrast := contrast s |}.

Definition setImages (data : value) (s : Session) : Session :=
  {| uploading := uploading s; processing := processing s; error := error s;
     notice := notice s; file := file s; images := data;
     selectedImageId := selectedImageId s; ops := ops s;
     brightness := brightness s; contrast := contrast s |}.

Definition setSelectedImageId (id : value) (s : Session) : Session :=
  {| uploading := uploading s; processing := processing s; error := error s;
     notice := notice s; file := file s; images := images s;
     selectedImageId := id; ops := ops s;
     brightness := brightness s; contrast := contrast s |}.

(** ** The monad of the flows

    A flow runs against the session state and the log of the requests
    sent so far; it ends normally or with a thrown [Error]. *)

Record World := { session : Session; calls : list Request }.

Definition Flow (A : Type) : Type := World → (Error + A) * World.

Definition ret {A} (a : A) : Flow A := λ w, (inr a, w).

Definition throw {A} (e : Error) : Flow A := λ w, (inl e, w).

Definition bind {A B} (m : Flow A) (k : A → Flow B) : Flow B :=
  λ w, match m w with
       | (inr a, w') => k a w'
       | (inl e, w') => (inl e, w')
       end.

#[global] Instance Flow_ret : MRet Flow := @ret.
#[global] Instance Flow_bind : MBind Flow := λ A B k m, bind m k.

(** A pure step that may throw. *)
Definition lift {A} (r : Error + A) : Flow A := λ w, (r, w).

(** A call to a state setter. *)
Definition set (f : Session → Session) : Flow unit :=
  λ w, (inr tt, {| session := f (session w); calls := calls w |}).

(** [try { body } catch (e) { handler }] *)
Definition try_catch {A} (body : Flow A) (handler : Error → Flow A) : Flow A :=
  λ w, match body w with
       | (inl e, w') => handler e w'
       | r => r
       end.

(** [try { body } finally { cleanup }]: the cleanup runs on both exits;
    its own exception, if any, replaces the outcome of the body. *)
Definition try_finally {A} (body : Flow A) (cleanup : Flow unit) : Flow A :=
  λ w, match body w with
       | (r, w') => match cleanup w' with
                    | (inr _, w'') => (r, w'')
                    | (inl e, w'') => (inl e, w'')
                    end
       end.

(** ** The flows *)

Section Flows.

(** The engine's [Number::toString]. *)
Variable NumberToString : number → string.

(** The backend: how [fetch] settles for each request, rejected with an
    error or resolved with a response. *)
Variable backend : Request → Error + Response.

(** [ToString], which throws on an object whose own [toString]
    property hides the callable one. *)
Fixpoint ToString (v : value) : Error + string :=
  match v with
  | VUndefined => inr "undefined"
  | VNull => inr "null"
  | VBool b => inr (if b then "true" else "false")
  | VNumber n => inr (NumberToString n)
  | VString s => inr s
  | VArray items =>
      (fix join (l : list value) : Error + string :=
         match l with
         | [] => inr ""
         | x :: rest =>
             match (match x with
                    | VUndefined | VNull => inr ""
                    | _ => ToString x
                    end) with
             | inl e => inl e
             | inr sx =>
                 match rest with
                 | [] => inr sx
                 | _ :: _ =>
                     match join rest with
                     | inl e => inl e
                     | inr sr => inr (sx +:+ "," +:+ sr)
                     end
                 end
             end
         end) items
  | VObject props =>
      match own_property props "toString" with
      | Some _ => inl TypeError_convert
      | None => inr "[object Object]"
      end
  end.

(** [await fetch(...)] *)
Definition fetch (req : Request) : Flow Response :=
  λ w, (backend req, {| session := session w; calls := (calls w ++ [req])%list |}).

(** [await res.json()] *)
Definition res_json (res : Response) : Flow value := lift (json res).

(** [safeReadJson] *)
Definition safeReadJson (res : Response) : Flow value :=
  try_catch (res_json res) (λ _, mret VNull).

(** [msg?.detail || fallback] *)
Definition detail_or (msg : value) (fallback : string) : Flow value :=
  detail ← match msg with
           | VUndefined | VNull => mret VUndefined
           | _ => lift (get_named "detail" msg)
           end;
  mret (if ToBoolean detail then detail else VString fallback).

(** [throw new Error(v)] *)
Definition throw_new_Error {A} (v : value) : Flow A :=
  text ← lift (ToString v);
  throw (new_Error text).

(** [fetchImages], in the render whose state is [r]. *)
Definition fetchImages (r : Session) : Flow unit :=
  try_catch
    (res ← fetch GET_images;
     (if negb (ok res)
      then throw (new_Error
                    ("Failed to list images (" +:+ pretty (status res) +:+ ")"))
      else mret tt);;
     data ← res_json res;
     set (setImages data);;
     if ToBoolean (selectedImageId r) then mret tt
     else
       len ← lift (get_length data);
       if ToBoolean len then
         first ← lift (get_first data);
         id ← lift (get_named "image_id" first);
         set (setSelectedImageId id)
       else mret tt)
    (λ e, set (setError (error_text e))).

(** [doUpload], in the render whose state is [r]. *)
Definition doUpload (r : Session) : Flow unit :=
  match file r with
  | None => set (setError "Please choose an image to upload.")
  | Some f =>
      set (setUploading true);;
      set (setError "");;
      set (setNotice "");;
      try_finally
        (try_catch
           (res ← fetch (POST_upload f);
            (if negb (ok res)
             then msg ← safeReadJson res;
                  v ← detail_or msg
                        ("Upload failed (" +:+ pretty (status res) +:+ ")");
                  throw_new_Error v
             else mret tt);;
            data ← res_json res;
            set (setNotice "Upload successful.");;
            set (setFile None);;
            fetchImages r;;
            id ← lift (get_named "image_id" data);
            set (setSelectedImageId id))
           (λ e, set (setError (error_text e))))
        (set (setUploading false))
  end.

(** [doProcess], in the render whose state is [r]; [parsedOps] is the
    memoised value of that render. *)
Definition doProcess (r : Session) : Flow unit :=
  let parsedOps := parsedOps (ops r) (brightness r) (contrast r) in
  if negb (ToBoolean (selectedImageId r))
  then set (setError "Please select an image to process.")
  else if bool_decide (size parsedOps = 0%nat)
  then set (setError "Choose at least one operation.")
  else
    set (setProcessing true);;
    set (setError "");;
    set (setNotice "");;
    try_finally
      (try_catch
         (res ← fetch (POST_process (selectedImageId r) parsedOps);
          (if negb (ok res)
           then msg ← safeReadJson res;
                v ← detail_or msg
                      ("Process failed (" +:+ pretty (status res) +:+ ")");
                throw_new_Error v
           else mret tt);;
          _ ← res_json res;
          set (setNotice "Processing complete.");;
          fetchImages r)
         (λ e, set (setError (error_text e))))
      (set (setProcessing false)).

End Flows.

(** ** The request log *)

(** A flow adds requests at the end of the log. *)
Definition extends_log {A} (m : Flow A) : Prop :=
  ∀ w, ∃ rest, calls (snd (m w)) = (calls w ++ rest)%list.

(** A flow sends [req] before anything else it sends. *)
Definition sends_first {A} (req : Request) (m : Flow A) : Prop :=
  ∀ w, ∃ rest, calls (snd (m w)) = (calls w ++ req :: rest)%list.

(** ** Sample inputs *)

(** A stand-in for the engine's [Number::toString]: exact on [NaN], the
    infinities, the zeros and the integers below [2^53] in magnitude,
    and the empty string elsewhere. *)
Definition sample_NumberToString (n : number) : string :=
  match n with
  | S754_nan => "NaN"
  | S754_infinity s => if s then "-Infinity" else "Infinity"
  | S754_zero _ => "0"
  | S754_finite s m e =>
      if (-52 <=? e) && (e <=? 0)
         && (Z.land (Zpos m) (Z.ones (- e)) =? 0)
      then (if s then "-" else "") +:+ pretty (Z.shiftr (Zpos m) (- e))
      else ""
  end.

Definition sample_image (id filename : string) : value :=
  VObject [("image_id", VString id); ("filename", VString filename);
           ("size_bytes", VNumber (Number "2048")); ("variants", VArray [])].

(** A backend that accepts every request. *)
Definition sample_backend (req : Request) : Error + Response :=
  match req with
  | GET_images =>
      inr {| status := 200;
             json := inr (VArray [sample_image "img-2" "b.png";
                                  sample_image "img-1" "a.png"]) |}
  | POST_upload f =>
      inr {| status := 200; json := inr (sample_image "img-2" (file_name f)) |}
  | POST_process _ _ =>
      inr {| status := 200; json := inr (VObject [("variant_id", VString "v-1")]) |}
  end.

(** A backend that cannot be reached: every [fetch] rejects. *)
Definition unreachable_backend (req : Request) : Error + Response :=
  inl {| name := "TypeError"; message := "Failed to fetch" |}.

(** A backend that refuses every request with a detail message. *)
Definition refusing_backend (req : Request) : Error + Response :=
  inr {| status := 422;
         json := inr (VObject [("detail", VString "Unsupported image")]) |}.

(** A backend whose bodies are not JSON. *)
Definition garbled_backend (req : Request) : Error + Response :=
  inr {| status := 200;
         json := inl {| name := "SyntaxError";
                        message := "Unexpected token < in JSON" |} |}.

Definition sample_file : File := {| file_name := "a.png"; file_size := 2048 |}.

(** A session holding one image, selected. *)
Definition sample_session : Session :=
  setSelectedImageId (VString "img-1")
    (setImages (VArray [sample_image "img-1" "a.png"]) initialSession).

Definition start (s : Session) : World := {| session := s; calls := [] |}.

(** A render with a chosen file and a selected image. *)
Definition ready_session : Session := setFile (Some sample_file) sample_session.

Definition grayscale_session : Session :=
  {| uploading := false; processing := false; error := ""; notice := "";
     file := None; images := images sample_session;
     selectedImageId := VString "img-1";
     ops := with_grayscale true initialOps;
     brightness := "1"; contrast := "1" |}.


(** ** The remaining functions of the component *)

Definition API_BASE : string := "http://localhost:3001".

(** [buildImageUrl] and [buildVariantUrl]: the template literal converts
    the id with [ToString]. *)
Definition buildImageUrl (NumberToString : number → string) (imageId : value)
  : Error + string :=
  match ToString NumberToString imageId with
  | inr id => inr (API_BASE +:+ "/images/" +:+ id)
  | inl e => inl e
  end.

Definition buildVariantUrl (NumberToString : number → string)
    (variantId : value) : Error + string :=
  match ToString NumberToString variantId with
  | inr id => inr (API_BASE +:+ "/images/processed/" +:+ id)
  | inl e => inl e
  end.

(** The remaining state setters. *)
Definition setOps (o : Ops) (s : Session) : Session :=
  {| uploading := uploading s; processing := processing s; error := error s;
     notice := notice s; file := file s; images := images s;
     selectedImageId := selectedImageId s; ops := o;
     brightness := brightness s; contrast := contrast s |}.

Definition setBrightness (text : string) (s : Session) : Session :=
  {| uploading := uploading s; processing := processing s; error := error s;
     notice := notice s; file := file s; images := images s;
     selectedImageId := selectedImageId s; ops := ops s;
     brightness := text; contrast := contrast s |}.

Definition setContrast (text : string) (s : Session) : Session :=
  {| uploading := uploading s; processing := processing s; error := error s;
     notice := notice s; file := file s; images := images s;
     selectedImageId := selectedImageId s; ops := ops s;
     brightness := brightness s; contrast := text |}.

(** [onFileChange]: [files] is [e.target.files], absent or a list;
    [e.target.files?.[0] || null] is its first file, if any. *)
Definition onFileChange (files : option (list File)) (s : Session) : Session :=
  setNotice "" (setError "" (setFile (files ≫= head) s)).

(** [resetOps] *)
Definition resetOps (s : Session) : Session :=
  setContrast "1" (setBrightness "1" (setOps initialOps s)).

(** The [disabled] attribute of the two buttons of the sidebar, in the
    render whose state is [r]; [hasImage] is [!!selectedImageId]. *)
Definition hasImage (r : Session) : bool := ToBoolean (selectedImageId r).

Definition upload_disabled (r : Session) : bool :=
  uploading r || negb (bool_decide (is_Some (file r))).

Definition apply_disabled (r : Session) : bool :=
  processing r || negb (hasImage r).

(** The change events of the form's inputs, and the patch each handler
    applies. *)
Inductive change :=
| ResizeWidth (v : string)
| ResizeHeight (v : string)
| CropX (v : string)
| CropY (v : string)
| CropWidth (v : string)
| CropHeight (v : string)
| GrayscaleChecked (checked : bool)
| BlurRadius (v : string).

Definition handle (c : change) (prev : gmap string property)
  : gmap string property :=
  match c with
  | ResizeWidth v => updateOps "resize.width" (Str v) prev
  | ResizeHeight v => updateOps "resize.height" (Str v) prev
  | CropX v => updateOps "crop.x" (Str v) prev
  | CropY v => updateOps "crop.y" (Str v) prev
  | CropWidth v => updateOps "crop.width" (Str v) prev
  | CropHeight v => updateOps "crop.height" (Str v) prev
  | GrayscaleChecked b => updateOps "grayscale" (Bool b) prev
  | BlurRadius v => updateOps "blur.radius" (Str v) prev
  end.

(** The same events on the typed form state. *)
Definition apply_change (c : change) (ops : Ops) : Ops :=
  match c with
  | ResizeWidth v => with_resize v (Resize.height (resize ops)) ops
  | ResizeHeight v => with_resize (Resize.width (resize ops)) v ops
  | CropX v => with_crop v (Crop.y (crop ops)) (Crop.width (crop ops))
                 (Crop.height (crop ops)) ops
  | CropY v => with_crop (Crop.x (crop ops)) v (Crop.width (crop ops))
                 (Crop.height (crop ops)) ops
  | CropWidth v => with_crop (Crop.x (crop ops)) (Crop.y (crop ops)) v
                     (Crop.height (crop ops)) ops
  | CropHeight v => with_crop (Crop.x (crop ops)) (Crop.y (crop ops))
                      (Crop.width (crop ops)) v ops
  | GrayscaleChecked b => with_grayscale b ops
  | BlurRadius v => with_blur v ops
  end.

(** What a path addresses: its first segment, and its second when that
    one is not empty. *)
Definition target (path : string) : string * option string :=
  match split_dot path with
  | root :: key :: _ => (root, if bool_decide (key ≠ "") then Some key else None)
  | root :: [] => (root, None)
  | [] => ("", None)
  end.

(** A flow leaves a component of the session as it found it. *)
Definition keeps {T A} (proj : Session → T) (m : Flow A) : Prop :=
  ∀ w, proj (session (snd (m w))) = proj (session w).

(** The form fields of a session. *)
Definition form_fields (s : Session) : Ops * string * string :=
  (ops s, brightness s, contrast s).

(** The assignment [updateOps] performs at what its path addresses. *)
Definition patch (at_ : string * option string) (value : primitive)
    (prev : gmap string property) : gmap string property :=
  match at_ with
  | (root, Some key) =>
      assign root (Group (<[key := value]> (spread (prev !! root)))) prev
  | (root, None) => assign root (Leaf value) prev
  end.

(** The body of the reply to a request, when the request is not
    rejected, its status is 2xx and its body is JSON. *)
Definition parsed_reply (backend : Request → Error + Response)
    (req : Request) : option value :=
  match backend req with
  | inr res => if ok res then match json res with
                              | inr data => Some data
                              | inl _ => None
                              end
               else None
  | inl _ => None
  end.

(** The error the upload and process flows throw on a response that is
    not 2xx: [new Error(msg?.detail || fallback)], where [msg] is what
    [safeReadJson] answers; or the [TypeError] of the conversion of the
    detail to a string. *)
Definition refusal (NumberToString : number → string) (fallback : string)
    (res : Response) : Error :=
  let msg := match json res with inr v => v | inl _ => VNull end in
  let detail := match msg with
                | VObject props => default VUndefined (own_property props "detail")
                | _ => VUndefined
                end in
  let v := if ToBoolean detail then detail else VString fallback in
  match ToString NumberToString v with
  | inr text => new_Error text
  | inl e => e
  end.

(** The world after a request has been sent. *)
Definition sent (req : Request) (w : World) : World :=
  {| session := session w; calls := (calls w ++ [req])%list |}.

(** The world after a setter has been called. *)
Definition after (f : Session → Session) (w : World) : World :=
  {| session := f (session w); calls := calls w |}.

(** A filled form: resize 800.7 x 600, crop 100 x 50 at (10.5, 0). *)
Definition sample_ops : Ops :=
  with_crop "10.5" "" "100" "50" (with_resize "800.7" "600" initialOps).

(** ** Properties of the number model *)

(** [Number] on sample texts. *)
Example Number_800 : Number "800" = S754_finite false 7036874417766400 (-43).
Proof. vm_compute. reflexivity. Qed.

Example Number_tenth : Number "0.1" = S754_finite false 7205759403792794 (-56).
Proof. vm_compute. reflexivity. Qed.

Example Number_one : Number "1" = one ∧ Number " 1.0e0 " = one.
Proof. vm_compute. split; reflexivity. Qed.

Example Number_empty : Number "" = zero ∧ Number "  " = zero.
Proof. vm_compute. split; reflexivity. Qed.

Example Number_minus_zero : Number "-0" = S754_zero true.
Proof. vm_compute. reflexivity. Qed.

Example Number_not_numeric :
  Number "abc" = NaN ∧ Number "1e" = NaN ∧ Number "12px" = NaN ∧
  Number "." = NaN ∧ Number "0x" = NaN ∧ Number "1 2" = NaN.
Proof. vm_compute. repeat split; reflexivity. Qed.

Example Number_hex : Number "0x1F" = Number "31".
Proof. vm_compute. reflexivity. Qed.

Example Number_overflow :
  Number "1e400" = Infinity ∧ Number "Infinity" = Infinity ∧
  Number "1.7976931348623157e308" = S754_finite false 9007199254740991 971.
Proof. vm_compute. repeat split; reflexivity. Qed.

Example Number_underflow :
  Number "4.9e-324" = S754_finite false 1 (-1074) ∧ Number "2e-324" = zero.
Proof. vm_compute. split; reflexivity. Qed.

(** Ties go to the even mantissa: [2^53 + 1] reads as [2^53]. *)
Example Number_tie : Number "9007199254740993" = Number "9007199254740992".
Proof. vm_compute. reflexivity. Qed.

Example Math_floor_samples :
  Math_floor (Number "800.7") = Number "800" ∧
  Math_floor (Number "0.5") = zero ∧
  Math_floor (Number "-0.5") = Number "-1" ∧
  Math_floor (Number "-3.2") = Number "-4" ∧
  Math_floor (Number "1e300") = Number "1e300".
Proof. vm_compute. repeat split; reflexivity. Qed.

Section Digits.

Lemma digits2_pos_size p : digits2_pos p = Pos.size p.
Proof. induction p; simpl; congruence. Qed.

(** A mantissa of [d] binary digits lies in [[2^(d-1), 2^d)]. *)
Lemma digits2_pos_bounds p :
  2 ^ (Zpos (digits2_pos p) - 1) <= Zpos p < 2 ^ Zpos (digits2_pos p).
Proof.
  rewrite digits2_pos_size. split.
  - pose proof (Pos.size_le p) as H.
    apply Pos2Z.pos_le_pos in H. rewrite Pos2Z.inj_pow in H.
    replace (Zpos (Pos.size p)) with (Z.succ (Zpos (Pos.size p) - 1)) in H
      by lia.
    rewrite Z.pow_succ_r in H by lia. lia.
  - pose proof (Pos.size_gt p) as H.
    apply Pos2Z.pos_lt_pos in H. by rewrite Pos2Z.inj_pow in H.
Qed.

Lemma Zdigits2_bounds m :
  0 < m → 2 ^ (Zdigits2 m - 1) <= m < 2 ^ Zdigits2 m.
Proof. destruct m as [|p|p]; try lia. intros _. apply digits2_pos_bounds. Qed.

Lemma Zdigits2_pos m : 0 < m → 0 < Zdigits2 m.
Proof. destruct m; simpl; lia. Qed.

Lemma Zdigits2_unique m d :
  2 ^ (d - 1) <= m < 2 ^ d → 0 < d → Zdigits2 m = d.
Proof.
  intros [Hlow Hhigh] Hd.
  assert (0 < m) by (pose proof (Z.pow_pos_nonneg 2 (d - 1)); lia).
  destruct (Zdigits2_bounds m) as [Hlow' Hhigh']; [done|].
  pose proof (Zdigits2_pos m).
  destruct (Z.lt_trichotomy (Zdigits2 m) d) as [Hlt|[Heq|Hgt]]; [|done|].
  - assert (2 ^ Zdigits2 m <= 2 ^ (d - 1)) by (apply Z.pow_le_mono_r; lia).
    lia.
  - assert (2 ^ d <= 2 ^ (Zdigits2 m - 1)) by (apply Z.pow_le_mono_r; lia).
    lia.
Qed.

(** Shifting right by [k] removes [k] digits. *)
Lemma Zdigits2_shiftr m k :
  0 < m → 0 <= k < Zdigits2 m → Zdigits2 (Z.shiftr m k) = Zdigits2 m - k.
Proof.
  intros Hm Hk. destruct (Zdigits2_bounds m) as [Hlow Hhigh]; [done|].
  rewrite Z.shiftr_div_pow2 by lia.
  assert (0 < 2 ^ k) by (apply Z.pow_pos_nonneg; lia).
  apply Zdigits2_unique; [|lia]. split.
  - apply Z.div_le_lower_bound; [done|].
    rewrite <- Z.pow_add_r by lia.
    by replace (k + (Zdigits2 m - k - 1)) with (Zdigits2 m - 1) by lia.
  - apply Z.div_lt_upper_bound; [done|].
    rewrite <- Z.pow_add_r by lia.
    by replace (k + (Zdigits2 m - k)) with (Zdigits2 m) by lia.
Qed.

Lemma shiftr_zero_digits m k :
  0 < m → 0 <= k → Z.shiftr m k = 0 → Zdigits2 m <= k.
Proof.
  intros Hm Hk Hz. destruct (Zdigits2_bounds m) as [Hlow Hhigh]; [done|].
  rewrite Z.shiftr_div_pow2 in Hz by lia.
  assert (0 < 2 ^ k) by (apply Z.pow_pos_nonneg; lia).
  apply Z.div_small_iff in Hz; [|lia].
  destruct (Z.le_gt_cases (Zdigits2 m) k) as [|Hgt]; [done|].
  assert (2 ^ k <= 2 ^ (Zdigits2 m - 1)) by (apply Z.pow_le_mono_r; lia).
  lia.
Qed.

Lemma Zdigits2_mono m n : 0 < m → m <= n → Zdigits2 m <= Zdigits2 n.
Proof.
  intros Hm Hmn.
  destruct (Zdigits2_bounds m) as [Hlow Hhigh]; [done|].
  destruct (Zdigits2_bounds n) as [Hlow' Hhigh']; [lia|].
  destruct (Z.le_gt_cases (Zdigits2 m) (Zdigits2 n)) as [|Hgt]; [done|].
  assert (2 ^ Zdigits2 n <= 2 ^ (Zdigits2 m - 1))
    by (apply Z.pow_le_mono_r; lia).
  lia.
Qed.

End Digits.

Section Rounding.

Lemma digits_shiftr_zero m k :
  0 <= m → 0 <= k → Zdigits2 m <= k → Z.shiftr m k = 0.
Proof.
  intros Hm Hk Hd. rewrite Z.shiftr_div_pow2 by done.
  destruct (Z.eq_dec m 0) as [->|Hne]; [done|].
  destruct (Zdigits2_bounds m) as [Hlow Hhigh]; [lia|].
  assert (2 ^ Zdigits2 m <= 2 ^ k) by (apply Z.pow_le_mono_r; lia).
  apply Z.div_small. lia.
Qed.

Lemma shr_1_m mrs :
  0 <= shr_m mrs → shr_m (shr_1 mrs) = Z.shiftr (shr_m mrs) 1.
Proof.
  destruct mrs as [m r s]. rewrite <- Z.div2_spec.
  destruct m as [|[p|p|]|[p|p|]]; simpl; intros; try lia; done.
Qed.

Lemma iter_pos_shr_1_m p :
  ∀ mrs, 0 <= shr_m mrs →
         shr_m (SpecFloat.iter_pos shr_1 p mrs) = Z.shiftr (shr_m mrs) (Zpos p).
Proof.
  induction p as [p IH|p IH|]; intros mrs Hm; simpl.
  - assert (0 <= shr_m (shr_1 mrs))
      by (rewrite shr_1_m by done; by apply Z.shiftr_nonneg).
    assert (0 <= shr_m (SpecFloat.iter_pos shr_1 p (shr_1 mrs)))
      by (rewrite IH by done; by apply Z.shiftr_nonneg).
    rewrite !IH, shr_1_m, !Z.shiftr_shiftr by lia.
    f_equal. lia.
  - assert (0 <= shr_m (SpecFloat.iter_pos shr_1 p mrs))
      by (rewrite IH by done; by apply Z.shiftr_nonneg).
    rewrite !IH, !Z.shiftr_shiftr by lia.
    f_equal. lia.
  - by apply shr_1_m.
Qed.

(** [shr_fexp] shifts the mantissa down to the exponent [fexp] asks
    for, when that exponent is above the current one. *)
Lemma shr_fexp_m m e l mrs e' :
  0 <= m →
  shr_fexp prec emax m e l = (mrs, e') →
  let k := Z.max 0 (fexp prec emax (Zdigits2 m + e) - e) in
  shr_m mrs = Z.shiftr m k ∧ e' = e + k.
Proof.
  intros Hm. unfold shr_fexp, shr.
  assert (Hloc : shr_m (shr_record_of_loc m l) = m)
    by (by destruct l as [|[]]).
  destruct (fexp prec emax (Zdigits2 m + e) - e) as [|k|k] eqn:Hk;
    intros [= <- <-]; cbv zeta.
  - rewrite Z.shiftr_0_r. split; [done|lia].
  - rewrite iter_pos_shr_1_m by lia. rewrite Hloc. split; [|lia].
    f_equal.
  - rewrite Z.shiftr_0_r. split; [done|lia].
Qed.

Lemma round_nearest_even_cases m l :
  round_nearest_even m l = m ∨ round_nearest_even m l = m + 1.
Proof. destruct l as [|[]]; simpl; auto. destruct (Z.even m); auto. Qed.

(** Rounding a non-negative mantissa whose exponent is not above the one
    [fexp] asks for gives a binary64 value. *)
Lemma binary_round_aux_valid sx mx ex lx :
  0 <= mx → ex <= fexp prec emax (Zdigits2 mx + ex) →
  valid_binary prec emax (binary_round_aux prec emax sx mx ex lx) = true.
Proof.
  intros Hmx Hex. unfold binary_round_aux.
  destruct (shr_fexp prec emax mx ex lx) as [mrs1 e1] eqn:H1.
  apply shr_fexp_m in H1 as [Hm1 He1]; [|done].
  rewrite Z.max_r in Hm1, He1 by lia.
  set (m1 := round_nearest_even (shr_m mrs1) (loc_of_shr_record mrs1)).
  assert (0 <= shr_m mrs1) as Hm1pos by (rewrite Hm1; by apply Z.shiftr_nonneg).
  assert (0 <= m1) as Hm1' by
    (destruct (round_nearest_even_cases (shr_m mrs1) (loc_of_shr_record mrs1));
     unfold m1; lia).
  destruct (shr_fexp prec emax m1 e1 loc_Exact) as [mrs2 e2] eqn:H2.
  apply shr_fexp_m in H2 as [Hm2 He2]; [|done].
  destruct (shr_m mrs2) as [|m|m] eqn:Hm; [done| |done].
  destruct (e2 <=? emax - prec) eqn:Hb; [|done].
  simpl. unfold bounded. rewrite Hb, andb_true_r.
  unfold canonical_mantissa. apply Z.eqb_eq.
  change (Zpos (digits2_pos m)) with (Zdigits2 (Zpos m)).
  assert (0 < m1) as Hm1'' by
    (destruct (Z.eq_dec m1 0) as [Hz|]; [|lia];
     rewrite Hz, Z.shiftr_0_l in Hm2; lia).
  (* the second shift is by a non-negative amount *)
  assert (e1 <= fexp prec emax (Zdigits2 m1 + e1)) as Hk2.
  { destruct (Z.eq_dec (shr_m mrs1) 0) as [Hz|Hnz].
    - assert (e1 = -1074) as ->.
      { destruct (Z.eq_dec mx 0) as [->|Hne].
        + simpl in *. unfold fexp, emin, prec, emax in *. lia.
        + rewrite Hz in Hm1. symmetry in Hm1.
          apply shiftr_zero_digits in Hm1; [|lia|lia].
          unfold fexp, emin, prec, emax in *. lia. }
      unfold fexp, emin, prec, emax. lia.
    - assert (Zdigits2 (shr_m mrs1) = Zdigits2 mx
                - (fexp prec emax (Zdigits2 mx + ex) - ex)) as Hd.
      { rewrite Hm1. apply Zdigits2_shiftr.
        - destruct (Z.eq_dec mx 0) as [->|]; [|lia].
          by rewrite Z.shiftr_0_l in Hm1.
        - split; [lia|].
          destruct (Z.le_gt_cases (Zdigits2 mx)
                      (fexp prec emax (Zdigits2 mx + ex) - ex)) as [Hle|];
            [|lia].
          apply digits_shiftr_zero in Hle; [|done|lia]. lia. }
      assert (Zdigits2 (shr_m mrs1) <= Zdigits2 m1).
      { apply Zdigits2_mono; [lia|].
        destruct (round_nearest_even_cases (shr_m mrs1)
                    (loc_of_shr_record mrs1)); unfold m1; lia. }
      unfold fexp, emin, prec, emax in *. lia. }
  rewrite Z.max_r in Hm2, He2 by lia.
  assert (fexp prec emax (Zdigits2 m1 + e1) - e1 < Zdigits2 m1).
  { destruct (Z.le_gt_cases (Zdigits2 m1)
                (fexp prec emax (Zdigits2 m1 + e1) - e1)) as [Hle|]; [|lia].
    apply digits_shiftr_zero in Hle; [|done|lia]. lia. }
  rewrite Hm2. rewrite Zdigits2_shiftr by lia.
  rewrite He2.
  replace (Zdigits2 m1 - (fexp prec emax (Zdigits2 m1 + e1) - e1)
           + (e1 + (fexp prec emax (Zdigits2 m1 + e1) - e1)))
    with (Zdigits2 m1 + e1) by lia.
  lia.
Qed.

Lemma pow2_le_digits t m : 0 <= t → 2 ^ t <= m → t < Zdigits2 m.
Proof.
  intros Ht Hm.
  assert (0 < 2 ^ t) by (apply Z.pow_pos_nonneg; lia).
  destruct (Zdigits2_bounds m) as [_ Hhigh]; [lia|].
  apply (Z.pow_lt_mono_r_iff 2); [lia| |lia].
  pose proof (Zdigits2_pos m). lia.
Qed.

(** The quotient [SFdiv_core_binary] hands to the rounding has enough
    digits for its exponent. *)
Lemma SFdiv_core_binary_ready p q mz ez lz :
  SFdiv_core_binary prec emax (Zpos p) 0 (Zpos q) 0 = (mz, ez, lz) →
  0 <= mz ∧ ez <= fexp prec emax (Zdigits2 mz + ez).
Proof.
  unfold SFdiv_core_binary.
  rewrite !Z.add_0_r, !Z.sub_0_r.
  set (d1 := Zdigits2 (Zpos p)). set (d2 := Zdigits2 (Zpos q)).
  set (e' := Z.min (fexp prec emax (d1 - d2)) 0).
  set (s := 0 - e').
  set (m' := match s with
             | Z0 => Zpos p
             | Zpos _ => Z.shiftl (Zpos p) s
             | Zneg _ => 0
             end).
  assert (0 <= s) as Hs by (unfold s, e'; lia).
  assert (m' = Zpos p * 2 ^ s) as Hm'.
  { unfold m'. destruct s as [|k|k] eqn:Hk; [simpl; lia| |lia].
    by rewrite Z.shiftl_mul_pow2 by lia. }
  assert (mz = m' / Zpos q → ez = e' →
          0 <= mz ∧ ez <= fexp prec emax (Zdigits2 mz + ez)) as Hgoal.
  { intros -> ->.
    assert (0 < 2 ^ s) by (apply Z.pow_pos_nonneg; lia).
    assert (0 <= m' / Zpos q) as Hq by (apply Z.div_pos; lia).
    split; [done|].
    destruct (Z.le_gt_cases e' (-1074)) as [|Hgt];
      [unfold fexp, emin, prec, emax; lia|].
    destruct (Zdigits2_bounds (Zpos p)) as [Hp _]; [lia|].
    destruct (Zdigits2_bounds (Zpos q)) as [_ Hq']; [lia|].
    fold d1 in Hp. fold d2 in Hq'.
    assert (0 < d1) by (apply Zdigits2_pos; lia).
    assert (0 < d2) by (apply Zdigits2_pos; lia).
    assert (52 <= d1 - 1 + s - d2) as Ht
      by (unfold s, e', fexp, emin, prec, emax in *; lia).
    set (t := d1 - 1 + s - d2) in *.
    assert (2 ^ t <= m' / Zpos q).
    { apply Z.div_le_lower_bound; [lia|].
      rewrite Hm'.
      assert (2 ^ d2 * 2 ^ t = 2 ^ (d1 - 1) * 2 ^ s) as Hpow.
      { rewrite <- !Z.pow_add_r by lia. f_equal. unfold t. lia. }
      assert (0 < 2 ^ t) by (apply Z.pow_pos_nonneg; lia).
      nia. }
    assert (t < Zdigits2 (m' / Zpos q)) by (apply pow2_le_digits; lia).
    unfold fexp, emin, prec, emax. lia. }
  unfold Z.div in Hgoal.
  destruct (Z.div_eucl m' (Zpos q)) as [q' r].
  intros [= <- <- <-]. by apply Hgoal.
Qed.

Lemma round_ratio_valid s p q :
  valid_binary prec emax (round_ratio s p q) = true.
Proof.
  unfold round_ratio.
  destruct (SFdiv_core_binary prec emax (Zpos p) 0 (Zpos q) 0)
    as [[mz ez] lz] eqn:Hdiv.
  apply SFdiv_core_binary_ready in Hdiv as [Hmz Hez].
  by apply binary_round_aux_valid.
Qed.

Lemma number_of_literal_valid s v :
  valid_binary prec emax (number_of_literal s v) = true.
Proof.
  destruct v as [|[|m] [|k|k]]; simpl; try done; apply round_ratio_valid.
Qed.

(** [Number] answers binary64 values only. *)
Lemma Number_valid text : valid_binary prec emax (Number text) = true.
Proof.
  unfold Number.
  destruct (trim (list_ascii_of_string text)) as [|c l]; [done|].
  destruct (non_decimal (c :: l)); [apply number_of_literal_valid|].
  match goal with
  | |- context [let '(s, l') := ?x in _] => destruct x as [s l']
  end.
  destruct (unsigned_decimal l'); [apply number_of_literal_valid|done].
Qed.

End Rounding.

Section Floor.

Lemma number_of_pos_truthy s p : number_truthy (number_of_pos s p) = true.
Proof. unfold number_of_pos. by destruct (prec - Z.pos (digits2_pos p)). Qed.

(** For a binary64 value, being finite, [> 0] and of non-zero floor is
    being finite and [>= 1]. *)
Lemma floor_truthy_iff_ge_one n :
  valid_binary prec emax n = true →
  Number_isFinite n && gt n zero && number_truthy (Math_floor n)
  = Number_isFinite n && ge n one.
Proof.
  destruct n as [s|s| |s m e]; try done.
  destruct s; [done|].
  intros [Hcanon Hbound]%andb_true_iff. apply Z.eqb_eq in Hcanon.
  unfold fexp, emin, prec, emax in Hcanon.
  pose proof (digits2_pos_bounds m) as [Hlow Hhigh].
  set (d := Zpos (digits2_pos m)) in *.
  change (number_truthy (Math_floor (S754_finite false m e))
          = ge (S754_finite false m e) one).
  unfold ge, SFleb, SFcompare, one, Math_floor.
  destruct (Z.leb_spec 0 e) as [He|He].
  { destruct (Z.compare_spec (-52) e); try lia. done. }
  cbn [cond_Zopp]. rewrite Z.shiftr_div_pow2 by lia.
  destruct (Z.compare_spec (-52) e) as [Heq|Hlt|Hgt].
  - (* e = -52: the mantissa has 53 digits *)
    subst e. assert (d = 53) as Hd by lia. rewrite Hd in Hlow.
    rewrite Pos.compare_cont_spec. cbn [Pos.switch_Eq].
    assert (1 <= Zpos m / 2 ^ 52) by (apply Z.div_le_lower_bound; lia).
    destruct (Zpos m / 2 ^ (- (-52))) as [|p|p] eqn:Hz;
      change (- (-52)) with 52 in Hz; try lia.
    rewrite number_of_pos_truthy.
    destruct (Pos.compare_spec 4503599627370496 m) as [?|?|Hm]; try done.
    apply Pos2Z.pos_lt_pos in Hm.
    change (Zpos 4503599627370496) with (2 ^ 52) in Hm.
    change (2 ^ (53 - 1)) with (2 ^ 52) in Hlow. lia.
  - (* -52 < e < 0: the value is at least 2 *)
    assert (d = 53) as Hd by lia. rewrite Hd in Hlow.
    assert (2 ^ (- e) <= 2 ^ (53 - 1)) by (apply Z.pow_le_mono_r; lia).
    assert (1 <= Zpos m / 2 ^ (- e)).
    { apply Z.div_le_lower_bound; [apply Z.pow_pos_nonneg|]; lia. }
    destruct (Zpos m / 2 ^ (- e)) as [|p|p]; try lia.
    by rewrite number_of_pos_truthy.
  - (* e < -52: the value is below 1 *)
    assert (d <= 53) by lia.
    assert (2 ^ d <= 2 ^ (- e)) by (apply Z.pow_le_mono_r; lia).
    rewrite Z.div_small by lia. done.
Qed.

Lemma iter_xO_pow2 p k : Zpos (Pos.iter xO p k) = Zpos p * 2 ^ Zpos k.
Proof.
  induction k as [|k IH] using Pos.peano_ind.
  - simpl. lia.
  - rewrite Pos.iter_succ, Pos2Z.inj_succ, Z.pow_succ_r by lia.
    rewrite Pos2Z.inj_xO, IH. lia.
Qed.

Lemma integer_value_number_of_pos s p :
  integer_value (number_of_pos s p) = Some (cond_Zopp s (Zpos p)).
Proof.
  unfold number_of_pos.
  destruct (prec - Zpos (digits2_pos p)) as [|k|k] eqn:Hk.
  - simpl. f_equal. destruct s; simpl; lia.
  - unfold integer_value.
    assert (Zpos (digits2_pos p) - prec = - Zpos k) as -> by lia.
    change (0 <=? - Zpos k) with false. cbv iota.
    rewrite Z.opp_involutive.
    rewrite iter_xO_pow2.
    assert (0 < 2 ^ Zpos k) by (apply Z.pow_pos_nonneg; lia).
    rewrite Z.mod_mul, Z.div_mul by lia. done.
  - simpl. f_equal. destruct s; simpl; lia.
Qed.

(** [Math.floor] answers the integer that is the floor of its finite
    argument. *)
Lemma Math_floor_integer n :
  Number_isFinite n = true → integer_value (Math_floor n) = floor_value n.
Proof.
  destruct n as [s|s| |s m e]; try done. intros _.
  unfold Math_floor, floor_value.
  destruct (0 <=? e) eqn:He.
  { unfold integer_value. by rewrite He. }
  apply Z.leb_gt in He. rewrite Z.shiftr_div_pow2 by lia.
  destruct (cond_Zopp s (Zpos m) / 2 ^ (- e)) as [|p|p] eqn:Hz; [done| |];
    by rewrite integer_value_number_of_pos.
Qed.

End Floor.
(** ** Properties of the normalizer *)

Section Normalizer.

Implicit Types (ops : Ops) (o : gmap string operation) (k : string).

Lemma toInt_Some v :
  toInt v = if finite_positive v then Some (Math_floor (Number v)) else None.
Proof. reflexivity. Qed.

Lemma toNonNegInt_Some v :
  toNonNegInt v =
  if finite_non_negative v then Some (Math_floor (Number v)) else None.
Proof. reflexivity. Qed.

Lemma floor_positive_split v :
  floor_positive v = finite_positive v && number_truthy (Math_floor (Number v)).
Proof. reflexivity. Qed.

(** Reading a key after a guarded assignment [if (c) o[k'] = v]. *)
Lemma lookup_guarded_insert (c : bool) k' (v : operation) o k :
  (if c then <[k' := v]> o else o) !! k =
  if c && bool_decide (k' = k) then Some v else o !! k.
Proof.
  destruct c; simpl; [|done].
  case_bool_decide; simplify_map_eq; done.
Qed.

Lemma dom_guarded_insert (c : bool) k' (v : operation) o :
  dom (if c then <[k' := v]> o else o) ⊆ {[ k' ]} ∪ dom o.
Proof. destruct c; [rewrite dom_insert_L|]; set_solver. Qed.

(** The two-number and four-number guards, as guarded assignments. *)
Lemma resize_step (rw rh : option number) o :
  match rw, rh with
  | Some w, Some h =>
      if number_truthy w && number_truthy h
      then <["resize" := ResizeOp w h]> o else o
  | _, _ => o
  end =
  if truthy rw && truthy rh
  then <["resize" := ResizeOp (default NaN rw) (default NaN rh)]> o else o.
Proof. destruct rw, rh; simpl; try done. by rewrite andb_false_r. Qed.

Lemma crop_step (cx cy cw ch : option number) o :
  match cx, cy, cw, ch with
  | Some x, Some y, Some w, Some h =>
      if number_truthy w && number_truthy h
      then <["crop" := CropOp x y w h]> o else o
  | _, _, _, _ => o
  end =
  if bool_decide (is_Some cx) && bool_decide (is_Some cy)
     && truthy cw && truthy ch
  then <["crop" := CropOp (default NaN cx) (default NaN cy)
                          (default NaN cw) (default NaN ch)]> o
  else o.
Proof.
  destruct cx, cy, cw, ch; simpl; try done;
    rewrite ?andb_false_r; try done.
Qed.

Lemma truthy_toInt v : truthy (toInt v) = floor_positive v.
Proof.
  rewrite toInt_Some, floor_positive_split.
  by destruct (finite_positive v).
Qed.

Lemma is_Some_toNonNegInt v :
  bool_decide (is_Some (toNonNegInt v)) = finite_non_negative v.
Proof.
  rewrite toNonNegInt_Some. destruct (finite_non_negative v).
  - apply bool_decide_eq_true; eauto.
  - apply bool_decide_eq_false. by intros [? ?].
Qed.

Lemma default_toInt v :
  floor_positive v = true → default NaN (toInt v) = Math_floor (Number v).
Proof.
  rewrite toInt_Some, floor_positive_split.
  by destruct (finite_positive v).
Qed.

Lemma default_toNonNegInt v :
  finite_non_negative v = true →
  default NaN (toNonNegInt v) = Math_floor (Number v).
Proof. rewrite toNonNegInt_Some. by intros ->. Qed.

(** The truthiness test on a floored dimension is the test [>= 1]. *)
Lemma floor_positive_at_least_one v :
  floor_positive v = finite_at_least_one v.
Proof. apply floor_truthy_iff_ge_one, Number_valid. Qed.

(** [parsedOps] as a chain of guarded assignments. *)
Lemma parsedOps_unfold ops brightness contrast :
  parsedOps ops brightness contrast =
  let o : gmap string operation := {[ "grayscale" := Flag (grayscale ops) ]} in
  let r := Number (Blur.radius (blur ops)) in
  let o := if negb (Number_isNaN r) && gt r zero
           then <["blur" := BlurOp r]> o else o in
  let rw := toInt (Resize.width (resize ops)) in
  let rh := toInt (Resize.height (resize ops)) in
  let o := if truthy rw && truthy rh
           then <["resize" := ResizeOp (default NaN rw) (default NaN rh)]> o
           else o in
  let cx := toNonNegInt (Crop.x (crop ops)) in
  let cy := toNonNegInt (Crop.y (crop ops)) in
  let cw := toInt (Crop.width (crop ops)) in
  let ch := toInt (Crop.height (crop ops)) in
  let o := if bool_decide (is_Some cx) && bool_decide (is_Some cy)
              && truthy cw && truthy ch
           then <["crop" := CropOp (default NaN cx) (default NaN cy)
                                   (default NaN cw) (default NaN ch)]> o
           else o in
  let o := if factor_accepted brightness
           then <["brightness" := FactorOp (Number brightness)]> o else o in
  if factor_accepted contrast
  then <["contrast" := FactorOp (Number contrast)]> o else o.
Proof.
  unfold parsedOps. cbv zeta. by rewrite resize_step, crop_step.
Qed.

End Normalizer.

(** Solves the reading of a literal key in the chain of guarded
    assignments. *)
Ltac read_key :=
  rewrite parsedOps_unfold; cbv zeta;
  rewrite !lookup_guarded_insert;
  repeat match goal with
    | |- context [bool_decide (?a = ?b)] =>
        first [ rewrite (bool_decide_eq_true_2 (a = b)) by reflexivity
              | rewrite (bool_decide_eq_false_2 (a = b)) by discriminate ]
    end;
  rewrite ?andb_true_r, ?andb_false_r;
  rewrite ?lookup_singleton_ne by discriminate;
  rewrite ?lookup_singleton_eq.

(** *** Resize *)

(** The examples of the specification. *)
Example resize_800_600 :
  parsedOps (with_resize "800" "600" initialOps) "1" "1" !! "resize"
  = Some (ResizeOp (Number "800") (Number "600")).
Proof. vm_compute. reflexivity. Qed.

Example resize_zero_width :
  parsedOps (with_resize "0" "600" initialOps) "1" "1" !! "resize" = None.
Proof. vm_compute. reflexivity. Qed.

Example resize_abc_width :
  parsedOps (with_resize "abc" "600" initialOps) "1" "1" !! "resize" = None.
Proof. vm_compute. reflexivity. Qed.

Example resize_missing_height :
  parsedOps (with_resize "800" "" initialOps) "1" "1" !! "resize" = None.
Proof. vm_compute. reflexivity. Qed.

Example resize_floors :
  parsedOps (with_resize "800.7" "1.5" initialOps) "1" "1" !! "resize"
  = Some (ResizeOp (Number "800") (Number "1")).
Proof. vm_compute. reflexivity. Qed.

(** C1 (as stated) fails: the width text "0.5" is numeric, finite and
    [> 0], and so is the height text "600", yet the resize key is
    absent, because the width floors to [0] and [rw && rh] is falsy. *)
Lemma resize_rule_without_floor_fails :
  finite_positive "0.5" = true ∧ finite_positive "600" = true ∧
  toInt "0.5" = Some zero ∧
  parsedOps (with_resize "0.5" "600" initialOps) "1" "1" !! "resize" = None.
Proof. vm_compute. repeat split; reflexivity. Qed.

(** C1 (as amended). The resize key is present exactly when both the
    width text and the height text parse to a finite number that is at
    least 1; the payload then holds the two floored values, and
    otherwise the key is absent altogether. *)
Theorem resize_included_iff_both_at_least_one ops brightness contrast :
  parsedOps ops brightness contrast !! "resize" =
  let w := Resize.width (resize ops) in
  let h := Resize.height (resize ops) in
  if finite_at_least_one w && finite_at_least_one h
  then Some (ResizeOp (Math_floor (Number w)) (Math_floor (Number h)))
  else None.
Proof.
  read_key. cbv zeta. rewrite <- !floor_positive_at_least_one.
  rewrite !truthy_toInt.
  destruct (floor_positive (Resize.width (resize ops))) eqn:Hw;
    destruct (floor_positive (Resize.height (resize ops))) eqn:Hh;
    simpl; try done.
  by rewrite !default_toInt.
Qed.

(** *** Brightness and contrast *)

Example brightness_neutral :
  parsedOps initialOps "1" "1" !! "brightness" = None.
Proof. vm_compute. reflexivity. Qed.

Example brightness_one_and_a_half :
  parsedOps initialOps "1.5" "1" !! "brightness"
  = Some (FactorOp (S754_finite false 6755399441055744 (-52))).
Proof. vm_compute. reflexivity. Qed.

Example brightness_zero_or_negative :
  parsedOps initialOps "0" "-2" !! "brightness" = None ∧
  parsedOps initialOps "0" "-2" !! "contrast" = None.
Proof. vm_compute. split; reflexivity. Qed.

(** C2 (as stated) fails: the brightness text "Infinity" does not parse
    to a finite number, yet the brightness key is present, with an
    infinite factor; likewise for contrast. The guard tests
    [Number.isNaN], not [Number.isFinite]. *)
Lemma factor_rule_with_finite_fails :
  finite_factor "Infinity" = false ∧
  parsedOps initialOps "Infinity" "1" !! "brightness"
  = Some (FactorOp Infinity) ∧
  parsedOps initialOps "1" "Infinity" !! "contrast"
  = Some (FactorOp Infinity).
Proof. vm_compute. repeat split; reflexivity. Qed.

(** C2 (as amended). The brightness key, respectively the contrast key,
    is present exactly when its text parses to a number that is not
    [NaN], is [> 0] and is not the neutral value [1] (positive infinity
    included); the payload is that number, and otherwise the key is
    absent. *)
Theorem factor_included_iff_accepted ops brightness contrast :
  parsedOps ops brightness contrast !! "brightness" =
    (if factor_accepted brightness
     then Some (FactorOp (Number brightness)) else None) ∧
  parsedOps ops brightness contrast !! "contrast" =
    (if factor_accepted contrast
     then Some (FactorOp (Number contrast)) else None).
Proof. split; read_key; done. Qed.

(** *** Crop *)

Example crop_origin_100_50 :
  parsedOps (with_crop "0" "0" "100" "50" initialOps) "1" "1" !! "crop"
  = Some (CropOp zero zero (Number "100") (Number "50")).
Proof. vm_compute. reflexivity. Qed.

Example crop_negative_x :
  parsedOps (with_crop "-1" "0" "100" "50" initialOps) "1" "1" !! "crop" = None.
Proof. vm_compute. reflexivity. Qed.

(** An empty x or y text parses to [0] and passes. *)
Example crop_empty_origin :
  parsedOps (with_crop "" "" "100" "50" initialOps) "1" "1" !! "crop"
  = Some (CropOp zero zero (Number "100") (Number "50")).
Proof. vm_compute. reflexivity. Qed.

(** C3 (as stated) fails: x "0" and y "0" are finite and [>= 0], width
    "0.5" and height "50" are finite and [> 0], yet the crop key is
    absent, because the width floors to [0] and [cw && ch] is falsy. *)
Lemma crop_rule_without_floor_fails :
  finite_non_negative "0" = true ∧ finite_positive "0.5" = true ∧
  finite_positive "50" = true ∧
  parsedOps (with_crop "0" "0" "0.5" "50" initialOps) "1" "1" !! "crop" = None.
Proof. vm_compute. repeat split; reflexivity. Qed.

(** C3 (as amended). The crop key is present exactly when x and y parse
    to finite numbers [>= 0] and width and height parse to finite numbers
    that are at least 1; the payload then holds the four floored values,
    and otherwise the key is absent altogether. *)
Theorem crop_included_iff_all_four_valid ops brightness contrast :
  parsedOps ops brightness contrast !! "crop" =
  let x := Crop.x (crop ops) in
  let y := Crop.y (crop ops) in
  let w := Crop.width (crop ops) in
  let h := Crop.height (crop ops) in
  if finite_non_negative x && finite_non_negative y
     && finite_at_least_one w && finite_at_least_one h
  then Some (CropOp (Math_floor (Number x)) (Math_floor (Number y))
                    (Math_floor (Number w)) (Math_floor (Number h)))
  else None.
Proof.
  read_key. cbv zeta. rewrite <- !floor_positive_at_least_one.
  rewrite !truthy_toInt, !is_Some_toNonNegInt.
  destruct (finite_non_negative (Crop.x (crop ops))) eqn:Hx;
    destruct (finite_non_negative (Crop.y (crop ops))) eqn:Hy;
    destruct (floor_positive (Crop.width (crop ops))) eqn:Hw;
    destruct (floor_positive (Crop.height (crop ops))) eqn:Hh;
    simpl; try done.
  by rewrite !default_toInt, !default_toNonNegInt.
Qed.

(** *** Grayscale and the key set *)

Lemma parsedOps_initial :
  parsedOps initialOps "1" "1" = {[ "grayscale" := Flag false ]}.
Proof. vm_compute. reflexivity. Qed.

(** C4. The grayscale key is present in every normalized set, its value
    is the checkbox state whatever the other fields hold, and it is the
    only key present for every raw form state. *)
Theorem grayscale_always_present :
  (∀ ops brightness contrast,
     parsedOps ops brightness contrast !! "grayscale"
     = Some (Flag (grayscale ops))) ∧
  (∀ k, (∀ ops brightness contrast,
           is_Some (parsedOps ops brightness contrast !! k))
        ↔ k = "grayscale").
Proof.
  assert (Hg : ∀ ops brightness contrast,
             parsedOps ops brightness contrast !! "grayscale"
             = Some (Flag (grayscale ops))).
  { intros. read_key. done. }
  split; [exact Hg|].
  intros k. split.
  - intros Hk. specialize (Hk initialOps "1" "1").
    rewrite parsedOps_initial in Hk. destruct Hk as [v Hv].
    apply lookup_singleton_Some in Hv. by destruct Hv.
  - intros -> ops brightness contrast. rewrite Hg. eauto.
Qed.

(** C10. The keys of the normalized set are among the six operation
    names; the sepia flag is never a key and does not influence the
    result. *)
Theorem keys_among_operation_names :
  (∀ ops brightness contrast,
     dom (parsedOps ops brightness contrast) ⊆ operation_names) ∧
  (∀ ops brightness contrast,
     parsedOps ops brightness contrast !! "sepia" = None) ∧
  (∀ b ops brightness contrast,
     parsedOps (with_sepia b ops) brightness contrast
     = parsedOps ops brightness contrast).
Proof.
  assert (Hdom : ∀ ops brightness contrast,
             dom (parsedOps ops brightness contrast) ⊆ operation_names).
  { intros. rewrite parsedOps_unfold. cbv zeta.
    repeat (etrans; [apply dom_guarded_insert|];
            apply union_least; [unfold operation_names; set_solver|]).
    rewrite dom_singleton_L. unfold operation_names. set_solver. }
  split; [exact Hdom|]. split.
  - intros. apply not_elem_of_dom. intros Hin%Hdom.
    unfold operation_names in Hin.
    repeat (apply elem_of_union in Hin as [Hin|Hin]);
      apply elem_of_singleton in Hin; discriminate.
  - reflexivity.
Qed.

(** ** Properties of the field patch *)

Section Patch.

Implicit Types (root key path : string) (prev : gmap string property).

(** A path without a dot is its own single segment. *)
Lemma split_dot_dotless root :
  dotless root = true → split_dot root = [root].
Proof.
  induction root as [|c root IH]; simpl; [done|].
  intros [Hc Hroot]%andb_true_iff.
  rewrite IH by done.
  by destruct (c =? ".")%char.
Qed.

(** [group.key] splits into its two segments. *)
Lemma split_dot_two_level root key :
  dotless root = true → dotless key = true →
  split_dot (root +:+ "." +:+ key) = [root; key].
Proof.
  intros Hroot Hkey.
  induction root as [|c root IH]; simpl.
  - by rewrite split_dot_dotless.
  - simpl in Hroot. apply andb_true_iff in Hroot as [Hc Hroot].
    change (String.app root (String "." key))
      with (root +:+ "." +:+ key).
    rewrite IH by done.
    by destruct (c =? ".")%char.
Qed.

Lemma assign_present root v prev :
  is_Some (prev !! root) → assign root v prev = <[root := v]> prev.
Proof.
  intros [old Hold]. unfold assign.
  rewrite (bool_decide_eq_false_2 (prev !! root = None)) by congruence.
  by rewrite andb_false_r.
Qed.

(** What [updateOps] computes for the two kinds of path of the form. *)
Lemma updateOps_two_level root key value prev fields :
  dotless root = true → dotless key = true → key ≠ "" →
  prev !! root = Some (Group fields) →
  updateOps (root +:+ "." +:+ key) value prev
  = <[root := Group (<[key := value]> fields)]> prev.
Proof.
  intros Hroot Hkey Hne Hprev. unfold updateOps.
  rewrite split_dot_two_level by done.
  rewrite bool_decide_eq_true_2 by done.
  rewrite assign_present by eauto.
  by rewrite Hprev.
Qed.

Lemma updateOps_top_level root value prev old :
  dotless root = true → prev !! root = Some (Leaf old) →
  updateOps root value prev = <[root := Leaf value]> prev.
Proof.
  intros Hroot Hprev. unfold updateOps.
  rewrite split_dot_dotless by done.
  by rewrite assign_present by eauto.
Qed.

End Patch.

(** C9. A patch at a two-level path [group.key] of an existing group
    replaces the value under [key] in that group and leaves the sibling
    fields of the group and every other top-level property as they were;
    a patch at a top-level path of an existing scalar replaces that
    scalar and leaves every other top-level property as it was. *)
Theorem field_patch_replaces_only_the_leaf
    (prev : gmap string property) (value : primitive) :
  (∀ root key fields,
     dotless root = true → dotless key = true → key ≠ "" →
     prev !! root = Some (Group fields) →
     let next := updateOps (root +:+ "." +:+ key) value prev in
     (∃ fields', next !! root = Some (Group fields') ∧
                 fields' !! key = Some value ∧
                 ∀ sibling, sibling ≠ key →
                            fields' !! sibling = fields !! sibling) ∧
     (∀ other, other ≠ root → next !! other = prev !! other)) ∧
  (∀ root old,
     dotless root = true → prev !! root = Some (Leaf old) →
     let next := updateOps root value prev in
     next !! root = Some (Leaf value) ∧
     (∀ other, other ≠ root → next !! other = prev !! other)).
Proof.
  split.
  - intros root key fields Hroot Hkey Hne Hprev next. subst next.
    rewrite (updateOps_two_level root key value prev fields) by done.
    split.
    + exists (<[key := value]> fields).
      rewrite !lookup_insert_eq. split; [done|]. split; [done|].
      intros sibling Hs. by rewrite lookup_insert_ne.
    + intros other Ho. by rewrite lookup_insert_ne.
  - intros root old Hroot Hprev next. subst next.
    rewrite (updateOps_top_level root value prev old) by done.
    rewrite lookup_insert_eq. split; [done|].
    intros other Ho. by rewrite lookup_insert_ne.
Qed.

(** The change handlers of the form keep the state in the shape of
    [initialOps]: each patch is the typed update of one field. *)
Lemma handlers_preserve_shape (ops : Ops) (v : string) (b : bool) :
  updateOps "resize.width" (Str v) (object_of_ops ops)
  = object_of_ops (with_resize v (Resize.height (resize ops)) ops) ∧
  updateOps "resize.height" (Str v) (object_of_ops ops)
  = object_of_ops (with_resize (Resize.width (resize ops)) v ops) ∧
  updateOps "crop.x" (Str v) (object_of_ops ops)
  = object_of_ops (with_crop v (Crop.y (crop ops)) (Crop.width (crop ops))
                             (Crop.height (crop ops)) ops) ∧
  updateOps "crop.y" (Str v) (object_of_ops ops)
  = object_of_ops (with_crop (Crop.x (crop ops)) v (Crop.width (crop ops))
                             (Crop.height (crop ops)) ops) ∧
  updateOps "crop.width" (Str v) (object_of_ops ops)
  = object_of_ops (with_crop (Crop.x (crop ops)) (Crop.y (crop ops)) v
                             (Crop.height (crop ops)) ops) ∧
  updateOps "crop.height" (Str v) (object_of_ops ops)
  = object_of_ops (with_crop (Crop.x (crop ops)) (Crop.y (crop ops))
                             (Crop.width (crop ops)) v ops) ∧
  updateOps "grayscale" (Bool b) (object_of_ops ops)
  = object_of_ops (with_grayscale b ops) ∧
  updateOps "blur.radius" (Str v) (object_of_ops ops)
  = object_of_ops (with_blur v ops).
Proof.
  repeat split.
  all: unfold updateOps, assign, object_of_ops; simpl;
    apply map_eq; intros k;
    repeat (rewrite lookup_insert; case_decide; subst; simpl; try done).
Qed.

(** ** Properties of the flows *)

Section FlowLaws.

Context {A B : Type}.
Implicit Types (w : World) (f : Session → Session).

Lemma bind_set f (k : Flow B) w :
  (set f ;; k) w = k {| session := f (session w); calls := calls w |}.
Proof. reflexivity. Qed.

(** A [finally] block made of a setter call keeps the outcome of the
    body and applies the setter to the state the body leaves. *)
Lemma try_finally_set (body : Flow A) f w :
  try_finally body (set f) w =
  (fst (body w),
   {| session := f (session (snd (body w))); calls := calls (snd (body w)) |}).
Proof. unfold try_finally, set. by destruct (body w). Qed.

(** A [catch] block made of a setter call absorbs every exception. *)
Lemma try_catch_set_total (body : Flow unit) (g : Error → Session → Session) w :
  fst (try_catch body (λ e, set (g e)) w) = inr tt.
Proof.
  unfold try_catch, set. destruct (body w) as [[e|[]] w']; done.
Qed.

End FlowLaws.

(** The normalized set is never empty. *)
Lemma parsedOps_nonempty ops brightness contrast :
  size (parsedOps ops brightness contrast) ≠ 0%nat.
Proof.
  intros Hsize. apply map_size_empty_iff in Hsize.
  assert (Hg : parsedOps ops brightness contrast !! "grayscale"
               = Some (Flag (grayscale ops))) by (read_key; done).
  rewrite Hsize in Hg. by rewrite lookup_empty in Hg.
Qed.


(** *** The request log only grows *)

Section Log.

Context {A B : Type}.
Variable backend : Request → Error + Response.

Lemma extends_ret (a : A) : extends_log (mret a).
Proof. intros w. exists []. by rewrite app_nil_r. Qed.

Lemma extends_throw (e : Error) : extends_log (@throw A e).
Proof. intros w. exists []. by rewrite app_nil_r. Qed.

Lemma extends_lift (x : Error + A) : extends_log (lift x).
Proof. intros w. exists []. by rewrite app_nil_r. Qed.

Lemma extends_set f : extends_log (set f).
Proof. intros w. exists []. by rewrite app_nil_r. Qed.

Lemma extends_fetch req : extends_log (fetch backend req).
Proof. intros w. by exists [req]. Qed.

Lemma extends_bind (m : Flow A) (k : A → Flow B) :
  extends_log m → (∀ a, extends_log (k a)) → extends_log (m ≫= k).
Proof.
  intros Hm Hk w. destruct (Hm w) as [rest1 H1].
  unfold mbind, Flow_bind, bind.
  destruct (m w) as [[e|a] w1]; simpl in *; [eauto|].
  destruct (Hk a w1) as [rest2 H2]. exists (rest1 ++ rest2)%list.
  by rewrite H2, H1, app_assoc.
Qed.

Lemma extends_try_catch (m : Flow A) (h : Error → Flow A) :
  extends_log m → (∀ e, extends_log (h e)) → extends_log (try_catch m h).
Proof.
  intros Hm Hh w. destruct (Hm w) as [rest1 H1].
  unfold try_catch.
  destruct (m w) as [[e|a] w1]; simpl in *; [|eauto].
  destruct (Hh e w1) as [rest2 H2]. exists (rest1 ++ rest2)%list.
  by rewrite H2, H1, app_assoc.
Qed.

Lemma extends_try_finally (m : Flow A) (c : Flow unit) :
  extends_log m → extends_log c → extends_log (try_finally m c).
Proof.
  intros Hm Hc w. destruct (Hm w) as [rest1 H1].
  unfold try_finally.
  destruct (m w) as [r w1]; simpl in *.
  destruct (Hc w1) as [rest2 H2]. exists (rest1 ++ rest2)%list.
  destruct (c w1) as [[e|[]] w2]; simpl in *;
    by rewrite H2, H1, app_assoc.
Qed.

Lemma extends_if (c : bool) (m1 m2 : Flow A) :
  extends_log m1 → extends_log m2 → extends_log (if c then m1 else m2).
Proof. by destruct c. Qed.

Lemma sends_first_fetch req (k : Response → Flow B) :
  (∀ res, extends_log (k res)) → sends_first req (fetch backend req ≫= k).
Proof.
  intros Hk w. unfold mbind, Flow_bind, bind, fetch.
  destruct (backend req) as [e|res]; simpl.
  - by exists [].
  - destruct (Hk res {| session := session w;
                        calls := (calls w ++ [req])%list |})
      as [rest Hrest].
    exists rest. rewrite Hrest. simpl. by rewrite <- app_assoc.
Qed.

Lemma sends_first_try_catch req (m : Flow A) (h : Error → Flow A) :
  sends_first req m → (∀ e, extends_log (h e)) →
  sends_first req (try_catch m h).
Proof.
  intros Hm Hh w. destruct (Hm w) as [rest1 H1].
  unfold try_catch.
  destruct (m w) as [[e|a] w1]; simpl in *; [|eauto].
  destruct (Hh e w1) as [rest2 H2]. exists (rest1 ++ rest2)%list.
  by rewrite H2, H1, <- app_assoc.
Qed.

Lemma sends_first_try_finally req (m : Flow A) (c : Flow unit) :
  sends_first req m → extends_log c → sends_first req (try_finally m c).
Proof.
  intros Hm Hc w. destruct (Hm w) as [rest1 H1].
  unfold try_finally.
  destruct (m w) as [r w1]; simpl in *.
  destruct (Hc w1) as [rest2 H2]. exists (rest1 ++ rest2)%list.
  destruct (c w1) as [[e|[]] w2]; simpl in *;
    by rewrite H2, H1, <- app_assoc.
Qed.

Lemma sends_first_after_set req f (m : Flow A) :
  sends_first req m → sends_first req (set f ;; m).
Proof. intros Hm w. apply (Hm {| session := _; calls := calls w |}). Qed.

End Log.

Lemma extends_res_json res : extends_log (res_json res).
Proof. apply extends_lift. Qed.

Create HintDb flow_log.
#[local] Hint Resolve extends_ret extends_throw extends_lift extends_set
  extends_fetch extends_res_json : flow_log.

(** Walks down the structure of a flow. *)
Ltac extends_log_steps :=
  repeat first
    [ solve [auto with flow_log]
    | apply extends_bind; [|intros ?]
    | apply extends_try_catch; [|intros ?]
    | apply extends_try_finally
    | apply extends_if ].

Lemma extends_fetchImages backend r : extends_log (fetchImages backend r).
Proof. unfold fetchImages. extends_log_steps. Qed.

Lemma extends_safeReadJson res : extends_log (safeReadJson res).
Proof. unfold safeReadJson, res_json. extends_log_steps. Qed.

Lemma extends_detail_or msg fallback : extends_log (detail_or msg fallback).
Proof.
  unfold detail_or. apply extends_bind; [|auto with flow_log].
  destruct msg; auto with flow_log.
Qed.

Lemma extends_throw_new_Error {A} NumberToString v :
  extends_log (@throw_new_Error NumberToString A v).
Proof. unfold throw_new_Error. extends_log_steps. Qed.

#[local] Hint Resolve extends_fetchImages extends_safeReadJson
  extends_detail_or extends_throw_new_Error : flow_log.

Section Sequencer.

Variable NumberToString : number → string.
Variable backend : Request → Error + Response.

Implicit Types (r : Session) (w : World).

(** C6. Triggered with no file selected, the upload flow sets the
    error to "Please choose an image to upload.", sends no request,
    and leaves the image list, the selection and the busy flags as
    they were. *)
Theorem upload_without_file r w :
  file r = None →
  let out := doUpload NumberToString backend r w in
  fst out = inr tt ∧
  error (session (snd out)) = "Please choose an image to upload." ∧
  calls (snd out) = calls w ∧
  images (session (snd out)) = images (session w) ∧
  selectedImageId (session (snd out)) = selectedImageId (session w) ∧
  uploading (session (snd out)) = uploading (session w) ∧
  processing (session (snd out)) = processing (session w).
Proof. intros Hfile. unfold doUpload. rewrite Hfile. done. Qed.

(** C7. An upload flow started with a file, and a process flow started
    with a selection, end without an exception and with their busy
    flag false, however the backend answers. *)
Theorem busy_flag_released r w :
  (is_Some (file r) →
   let out := doUpload NumberToString backend r w in
   fst out = inr tt ∧ uploading (session (snd out)) = false) ∧
  (ToBoolean (selectedImageId r) = true →
   let out := doProcess NumberToString backend r w in
   fst out = inr tt ∧ processing (session (snd out)) = false).
Proof.
  split.
  - intros [f Hf]. unfold doUpload. rewrite Hf. cbv zeta.
    rewrite !bind_set, try_finally_set. simpl.
    split; [apply try_catch_set_total | done].
  - intros Hsel. unfold doProcess. cbv zeta. rewrite Hsel. cbn [negb].
    rewrite bool_decide_eq_false_2 by apply parsedOps_nonempty.
    rewrite !bind_set, try_finally_set. simpl.
    split; [apply try_catch_set_total | done].
Qed.

(** C5. The normalized set of a render is never empty, so a process
    flow started with a selection passes the emptiness guard: its
    request, carrying that set, is sent. This holds in particular for
    the set that holds the grayscale key alone, with the value
    false. *)
Theorem emptiness_guard_never_fires r w :
  size (parsedOps (ops r) (brightness r) (contrast r)) ≠ 0%nat ∧
  (ToBoolean (selectedImageId r) = true →
   ∃ rest,
     calls (snd (doProcess NumberToString backend r w)) =
     (calls w
      ++ POST_process (selectedImageId r)
           (parsedOps (ops r) (brightness r) (contrast r)) :: rest)%list) ∧
  (ToBoolean (selectedImageId r) = true →
   parsedOps (ops r) (brightness r) (contrast r)
   = {[ "grayscale" := Flag false ]} →
   ∃ rest,
     calls (snd (doProcess NumberToString backend r w)) =
     (calls w
      ++ POST_process (selectedImageId r) {[ "grayscale" := Flag false ]}
         :: rest)%list).
Proof.
  assert (Hsent : ToBoolean (selectedImageId r) = true →
    ∃ rest,
      calls (snd (doProcess NumberToString backend r w)) =
      (calls w
       ++ POST_process (selectedImageId r)
            (parsedOps (ops r) (brightness r) (contrast r)) :: rest)%list).
  { intros Hsel. unfold doProcess. cbv zeta. rewrite Hsel. cbn [negb].
    rewrite bool_decide_eq_false_2 by apply parsedOps_nonempty.
    apply sends_first_after_set, sends_first_after_set,
      sends_first_after_set.
    apply sends_first_try_finally; [|auto with flow_log].
    apply sends_first_try_catch; [|auto with flow_log].
    apply sends_first_fetch. intros res. extends_log_steps. }
  split; [apply parsedOps_nonempty|]. split; [exact Hsent|].
  intros Hsel Hops. rewrite <- Hops. by apply Hsent.
Qed.

End Sequencer.

Lemma number_of_length_truthy n :
  number_truthy (number_of_length (S n)) = true.
Proof.
  unfold number_of_length, number_of_pos.
  destruct (N.of_nat (S n)) as [|p] eqn:Hn; [lia|].
  by destruct (prec - Z.pos (digits2_pos p)).
Qed.

Section Refresh.

Variable backend : Request → Error + Response.

Implicit Types (r : Session) (w : World).

(** C8. A list refresh sends one request and never throws. When the
    request fails, the response is not 2xx, or the body does not
    parse, the image list and the selection stay as they were and the
    error is set. Only on a parsed 2xx response is the image list
    replaced by the body; for a list of images the first one is then
    selected when the render had no selection and the list is not
    empty. *)
Theorem list_refresh_outcome r w :
  let out := fetchImages backend r w in
  let s := session w in
  let s' := session (snd out) in
  fst out = inr tt ∧
  calls (snd out) = (calls w ++ [GET_images])%list ∧
  match backend GET_images with
  | inl e =>
      images s' = images s ∧ selectedImageId s' = selectedImageId s ∧
      error s' = error_text e
  | inr res =>
      if ok res then
        match json res with
        | inl e =>
            images s' = images s ∧ selectedImageId s' = selectedImageId s ∧
            error s' = error_text e
        | inr data =>
            images s' = data ∧
            match data with
            | VArray [] =>
                selectedImageId s' = selectedImageId s ∧ error s' = error s
            | VArray (VObject props :: _) =>
                selectedImageId s' =
                  (if ToBoolean (selectedImageId r) then selectedImageId s
                   else default VUndefined (own_property props "image_id")) ∧
                error s' = error s
            | _ => True
            end
        end
      else
        images s' = images s ∧ selectedImageId s' = selectedImageId s ∧
        error s' = "Failed to list images (" +:+ pretty (status res) +:+ ")"
  end.
Proof.
  cbv zeta. split; [apply try_catch_set_total|].
  unfold fetchImages, try_catch, fetch, res_json, lift, set, throw.
  unfold mbind, mret, Flow_bind, Flow_ret, bind, ret.
  destruct (backend GET_images) as [e|res]; [done|].
  destruct (ok res); cbn [negb]; [|done].
  destruct (json res) as [e|data]; [done|].
  destruct (ToBoolean (selectedImageId r)) eqn:Hsel.
  { split; [done|]. split; [done|].
    destruct data as [| | | | |[|[]]|]; done. }
  destruct data as [| | | | |[|first items]|]; cbn;
    rewrite ?number_of_length_truthy;
    repeat case_match; simplify_eq/=; done.
Qed.

End Refresh.

(** ** The flows on sample inputs *)

(** Selection "img-1" and the set [{grayscale: true}]: on success the
    notice is set, the list is refreshed once and the busy flag is
    false again. *)
Example process_end_to_end :
  let out := doProcess sample_NumberToString sample_backend
               grayscale_session (start grayscale_session) in
  fst out = inr tt ∧
  calls (snd out) =
    [POST_process (VString "img-1") {[ "grayscale" := Flag true ]};
     GET_images] ∧
  notice (session (snd out)) = "Processing complete." ∧
  error (session (snd out)) = "" ∧
  processing (session (snd out)) = false.
Proof. vm_compute. repeat split; reflexivity. Qed.

(** A successful upload selects the new image, whatever was selected. *)
Example upload_end_to_end :
  let out := doUpload sample_NumberToString sample_backend
               ready_session (start ready_session) in
  fst out = inr tt ∧
  calls (snd out) = [POST_upload sample_file; GET_images] ∧
  notice (session (snd out)) = "Upload successful." ∧
  file (session (snd out)) = None ∧
  selectedImageId (session (snd out)) = VString "img-2" ∧
  uploading (session (snd out)) = false.
Proof. vm_compute. repeat split; reflexivity. Qed.

Example upload_unreachable :
  let out := doUpload sample_NumberToString unreachable_backend
               ready_session (start ready_session) in
  error (session (snd out)) = "Failed to fetch" ∧
  images (session (snd out)) = images ready_session ∧
  selectedImageId (session (snd out)) = VString "img-1" ∧
  uploading (session (snd out)) = false.
Proof. vm_compute. repeat split; reflexivity. Qed.

Example upload_refused :
  let out := doUpload sample_NumberToString refusing_backend
               ready_session (start ready_session) in
  error (session (snd out)) = "Unsupported image" ∧
  calls (snd out) = [POST_upload sample_file] ∧
  uploading (session (snd out)) = false.
Proof. vm_compute. repeat split; reflexivity. Qed.

Example process_garbled :
  let out := doProcess sample_NumberToString garbled_backend
               ready_session (start ready_session) in
  error (session (snd out)) = "Unexpected token < in JSON" ∧
  processing (session (snd out)) = false.
Proof. vm_compute. repeat split; reflexivity. Qed.

(** The first refresh of a fresh session selects the first image. *)
Example first_refresh_selects :
  let out := fetchImages sample_backend initialSession (start initialSession) in
  selectedImageId (session (snd out)) = VString "img-2".
Proof. vm_compute. reflexivity. Qed.

Example failed_refresh_keeps_list :
  let out := fetchImages refusing_backend sample_session (start sample_session) in
  images (session (snd out)) = images sample_session ∧
  error (session (snd out)) = "Failed to list images (422)".
Proof. vm_compute. split; reflexivity. Qed.

(** *** Instances of the conditional theorems *)

Lemma emptiness_guard_never_fires_witness :
  ToBoolean (selectedImageId sample_session) = true ∧
  parsedOps (ops sample_session) (brightness sample_session)
            (contrast sample_session) = {[ "grayscale" := Flag false ]} ∧
  ∃ rest,
    calls (snd (doProcess sample_NumberToString sample_backend
                  sample_session (start sample_session))) =
    POST_process (VString "img-1") {[ "grayscale" := Flag false ]} :: rest.
Proof.
  split; [reflexivity|]. split; [vm_compute; reflexivity|].
  exact (proj2 (proj2 (emptiness_guard_never_fires
                         sample_NumberToString sample_backend
                         sample_session (start sample_session)))
           eq_refl parsedOps_initial).
Defined.

Lemma upload_without_file_witness :
  file sample_session = None ∧
  error (session (snd (doUpload sample_NumberToString sample_backend
                         sample_session (start sample_session))))
  = "Please choose an image to upload." ∧
  calls (snd (doUpload sample_NumberToString sample_backend
                sample_session (start sample_session))) = [].
Proof.
  split; [reflexivity|].
  pose proof (upload_without_file sample_NumberToString sample_backend
                sample_session (start sample_session) eq_refl) as H.
  cbv zeta in H. destruct H as (_ & Herror & Hcalls & _).
  split; [exact Herror | exact Hcalls].
Defined.

Lemma busy_flag_released_witness :
  is_Some (file ready_session) ∧
  ToBoolean (selectedImageId ready_session) = true ∧
  uploading (session (snd (doUpload sample_NumberToString refusing_backend
                             ready_session (start ready_session)))) = false ∧
  processing (session (snd (doProcess sample_NumberToString garbled_backend
                              ready_session (start ready_session)))) = false.
Proof.
  split; [by exists sample_file|]. split; [reflexivity|]. split.
  - apply (proj1 (busy_flag_released sample_NumberToString refusing_backend
                    ready_session (start ready_session))).
    by exists sample_file.
  - apply (proj2 (busy_flag_released sample_NumberToString garbled_backend
                    ready_session (start ready_session))).
    reflexivity.
Defined.

Lemma field_patch_replaces_only_the_leaf_witness :
  let prev := object_of_ops initialOps in
  (updateOps "resize.width" (Str "800") prev !! "crop" = prev !! "crop") ∧
  (updateOps "grayscale" (Bool true) prev !! "grayscale"
   = Some (Leaf (Bool true))).
Proof.
  intros prev. split.
  - refine (proj2 (proj1 (field_patch_replaces_only_the_leaf prev (Str "800"))
                     "resize" "width"
                     (<["width" := Str ""]> (<["height" := Str ""]> ∅))
                     eq_refl eq_refl _ _) "crop" _).
    + discriminate.
    + vm_compute. reflexivity.
    + discriminate.
  - refine (proj1 (proj2 (field_patch_replaces_only_the_leaf prev (Bool true))
                     "grayscale" (Bool false) eq_refl _)).
    vm_compute. reflexivity.
Defined.

(** ** Further properties of the normalizer *)

Example blur_samples :
  parsedOps (with_blur "1.5" initialOps) "1" "1" !! "blur"
  = Some (BlurOp (Number "1.5")) ∧
  parsedOps (with_blur "" initialOps) "1" "1" !! "blur" = None ∧
  parsedOps (with_blur "0" initialOps) "1" "1" !! "blur" = None ∧
  parsedOps (with_blur "-2" initialOps) "1" "1" !! "blur" = None ∧
  parsedOps (with_blur "soft" initialOps) "1" "1" !! "blur" = None ∧
  parsedOps (with_blur "Infinity" initialOps) "1" "1" !! "blur"
  = Some (BlurOp Infinity).
Proof. vm_compute. repeat split; reflexivity. Qed.

(** *** Reading each key of the normalized set *)

Section Lookups.

Variables (ops : Ops) (brightness contrast : string).

Lemma lookup_grayscale :
  parsedOps ops brightness contrast !! "grayscale"
  = Some (Flag (grayscale ops)).
Proof. read_key. done. Qed.

Lemma lookup_blur :
  parsedOps ops brightness contrast !! "blur" =
  let r := Number (Blur.radius (blur ops)) in
  if negb (Number_isNaN r) && gt r zero then Some (BlurOp r) else None.
Proof. read_key. done. Qed.

Lemma lookup_resize :
  parsedOps ops brightness contrast !! "resize" =
  let w := Resize.width (resize ops) in
  let h := Resize.height (resize ops) in
  if finite_at_least_one w && finite_at_least_one h
  then Some (ResizeOp (Math_floor (Number w)) (Math_floor (Number h)))
  else None.
Proof.
  read_key. cbv zeta. rewrite <- !floor_positive_at_least_one.
  rewrite !truthy_toInt.
  destruct (floor_positive (Resize.width (resize ops))) eqn:Hw;
    destruct (floor_positive (Resize.height (resize ops))) eqn:Hh;
    simpl; try done.
  by rewrite !default_toInt.
Qed.

Lemma lookup_crop :
  parsedOps ops brightness contrast !! "crop" =
  let x := Crop.x (crop ops) in
  let y := Crop.y (crop ops) in
  let w := Crop.width (crop ops) in
  let h := Crop.height (crop ops) in
  if finite_non_negative x && finite_non_negative y
     && finite_at_least_one w && finite_at_least_one h
  then Some (CropOp (Math_floor (Number x)) (Math_floor (Number y))
                    (Math_floor (Number w)) (Math_floor (Number h)))
  else None.
Proof.
  read_key. cbv zeta. rewrite <- !floor_positive_at_least_one.
  rewrite !truthy_toInt, !is_Some_toNonNegInt.
  destruct (finite_non_negative (Crop.x (crop ops))) eqn:Hx;
    destruct (finite_non_negative (Crop.y (crop ops))) eqn:Hy;
    destruct (floor_positive (Crop.width (crop ops))) eqn:Hw;
    destruct (floor_positive (Crop.height (crop ops))) eqn:Hh;
    simpl; try done.
  by rewrite !default_toInt, !default_toNonNegInt.
Qed.

Lemma lookup_brightness :
  parsedOps ops brightness contrast !! "brightness" =
  if factor_accepted brightness
  then Some (FactorOp (Number brightness)) else None.
Proof. read_key. done. Qed.

Lemma lookup_contrast :
  parsedOps ops brightness contrast !! "contrast" =
  if factor_accepted contrast
  then Some (FactorOp (Number contrast)) else None.
Proof. read_key. done. Qed.

End Lookups.

(** X1. The blur key is present exactly when the radius text parses to a
    number that is not [NaN] and is [> 0] (a fractional radius is kept
    as it is, and positive infinity passes); the payload is that number,
    and otherwise the key is absent. *)
Theorem blur_included_iff_positive ops brightness contrast :
  parsedOps ops brightness contrast !! "blur" =
  let r := Number (Blur.radius (blur ops)) in
  if negb (Number_isNaN r) && gt r zero then Some (BlurOp r) else None.
Proof. apply lookup_blur. Qed.

(** *** The dimensions sent are integers *)

Lemma floor_value_at_least_one n :
  valid_binary prec emax n = true →
  Number_isFinite n && ge n one = true →
  ∃ z, floor_value n = Some z ∧ 1 <= z.
Proof.
  intros Hvalid Hge.
  rewrite <- floor_truthy_iff_ge_one in Hge by done.
  apply andb_true_iff in Hge as [Hge Htruthy].
  apply andb_true_iff in Hge as [Hfin Hpos].
  destruct n as [s|s| |s m e]; try done.
  destruct s; [done|].
  unfold floor_value. eexists; split; [done|].
  unfold Math_floor in Htruthy. cbn [cond_Zopp] in *.
  destruct (Z.leb_spec 0 e) as [He|He].
  - assert (0 < 2 ^ e) by (apply Z.pow_pos_nonneg; lia). nia.
  - rewrite Z.shiftr_div_pow2 in Htruthy by lia.
    assert (0 < 2 ^ (- e)) by (apply Z.pow_pos_nonneg; lia).
    assert (0 <= Zpos m / 2 ^ (- e)) by (apply Z.div_pos; lia).
    destruct (Zpos m / 2 ^ (- e)); [done|lia|lia].
Qed.

Lemma floor_value_non_negative n :
  Number_isFinite n && ge n zero = true →
  ∃ z, floor_value n = Some z ∧ 0 <= z.
Proof.
  intros [Hfin Hge]%andb_true_iff.
  destruct n as [s|s| |s m e]; try done.
  - by exists 0.
  - destruct s; [done|].
    unfold floor_value. eexists; split; [done|]. cbn [cond_Zopp].
    destruct (Z.leb_spec 0 e).
    + assert (0 <= 2 ^ e) by (apply Z.pow_nonneg; lia). nia.
    + apply Z.div_pos; [lia|]. apply Z.pow_pos_nonneg; lia.
Qed.

(** What [toInt] answers for a text that is finite and at least 1, and
    [toNonNegInt] for one that is finite and not negative: the number
    that is the integer floor of the parsed value. *)
Lemma floored_dimension v :
  finite_at_least_one v = true →
  ∃ z, integer_value (Math_floor (Number v)) = Some z ∧
       floor_value (Number v) = Some z ∧ 1 <= z.
Proof.
  intros Hv.
  destruct (floor_value_at_least_one (Number v)) as (z & Hz & Hle);
    [apply Number_valid|done|].
  exists z. rewrite Math_floor_integer; [done|].
  by apply andb_true_iff in Hv as [? _].
Qed.

Lemma floored_offset v :
  finite_non_negative v = true →
  ∃ z, integer_value (Math_floor (Number v)) = Some z ∧
       floor_value (Number v) = Some z ∧ 0 <= z.
Proof.
  intros Hv.
  destruct (floor_value_non_negative (Number v)) as (z & Hz & Hle); [done|].
  exists z. rewrite Math_floor_integer; [done|].
  by apply andb_true_iff in Hv as [? _].
Qed.

(** X2. Whenever the normalized set holds a resize operation, its width
    and its height are integers of at least 1: the floors of the values
    the two texts parse to. *)
Theorem resize_payload_positive_integers ops brightness contrast w h :
  parsedOps ops brightness contrast !! "resize" = Some (ResizeOp w h) →
  ∃ zw zh,
    integer_value w = Some zw ∧ integer_value h = Some zh ∧
    floor_value (Number (Resize.width (resize ops))) = Some zw ∧
    floor_value (Number (Resize.height (resize ops))) = Some zh ∧
    1 <= zw ∧ 1 <= zh.
Proof.
  rewrite lookup_resize. cbv zeta.
  destruct (finite_at_least_one (Resize.width (resize ops))) eqn:Hw;
    [|done].
  destruct (finite_at_least_one (Resize.height (resize ops))) eqn:Hh;
    [|done].
  intros [= <- <-].
  destruct (floored_dimension _ Hw) as (zw & ? & ? & ?).
  destruct (floored_dimension _ Hh) as (zh & ? & ? & ?).
  by exists zw, zh.
Qed.

(** X3. Whenever the normalized set holds a crop operation, its x and y
    are integers of at least 0 and its width and height are integers of
    at least 1: the floors of the values the four texts parse to. *)
Theorem crop_payload_integers ops brightness contrast x y w h :
  parsedOps ops brightness contrast !! "crop" = Some (CropOp x y w h) →
  ∃ zx zy zw zh,
    integer_value x = Some zx ∧ integer_value y = Some zy ∧
    integer_value w = Some zw ∧ integer_value h = Some zh ∧
    floor_value (Number (Crop.x (crop ops))) = Some zx ∧
    floor_value (Number (Crop.y (crop ops))) = Some zy ∧
    floor_value (Number (Crop.width (crop ops))) = Some zw ∧
    floor_value (Number (Crop.height (crop ops))) = Some zh ∧
    0 <= zx ∧ 0 <= zy ∧ 1 <= zw ∧ 1 <= zh.
Proof.
  rewrite lookup_crop. cbv zeta.
  destruct (finite_non_negative (Crop.x (crop ops))) eqn:Hx; [|done].
  destruct (finite_non_negative (Crop.y (crop ops))) eqn:Hy; [|done].
  destruct (finite_at_least_one (Crop.width (crop ops))) eqn:Hw; [|done].
  destruct (finite_at_least_one (Crop.height (crop ops))) eqn:Hh; [|done].
  intros [= <- <- <- <-].
  destruct (floored_offset _ Hx) as (zx & ? & ? & ?).
  destruct (floored_offset _ Hy) as (zy & ? & ? & ?).
  destruct (floored_dimension _ Hw) as (zw & ? & ? & ?).
  destruct (floored_dimension _ Hh) as (zh & ? & ? & ?).
  exists zx, zy, zw, zh. repeat split; done.
Qed.

(** *** The operations do not depend on one another *)

(** X4. Each key of the normalized set is decided by its own field group
    alone: two raw states that agree on a group agree on the presence and
    the payload of its key, whatever the other fields hold. *)
Theorem operations_are_independent ops ops' b b' c c' :
  (grayscale ops = grayscale ops' →
   parsedOps ops b c !! "grayscale" = parsedOps ops' b' c' !! "grayscale") ∧
  (blur ops = blur ops' →
   parsedOps ops b c !! "blur" = parsedOps ops' b' c' !! "blur") ∧
  (resize ops = resize ops' →
   parsedOps ops b c !! "resize" = parsedOps ops' b' c' !! "resize") ∧
  (crop ops = crop ops' →
   parsedOps ops b c !! "crop" = parsedOps ops' b' c' !! "crop") ∧
  (b = b' →
   parsedOps ops b c !! "brightness" = parsedOps ops' b' c' !! "brightness") ∧
  (c = c' →
   parsedOps ops b c !! "contrast" = parsedOps ops' b' c' !! "contrast").
Proof.
  repeat split; intros Heq.
  - by rewrite !lookup_grayscale, Heq.
  - by rewrite !lookup_blur, Heq.
  - by rewrite !lookup_resize, Heq.
  - by rewrite !lookup_crop, Heq.
  - by rewrite !lookup_brightness, Heq.
  - by rewrite !lookup_contrast, Heq.
Qed.

(** *** Empty fields *)

Lemma empty_text_rules :
  finite_at_least_one "" = false ∧ finite_non_negative "" = true ∧
  factor_accepted "" = false ∧
  negb (Number_isNaN (Number "")) && gt (Number "") zero = false.
Proof. vm_compute. repeat split; reflexivity. Qed.

(** X5. An empty text omits its operation, except for the offsets of a
    crop: with an empty radius there is no blur, with an empty width or
    height no resize and no crop, with an empty factor no brightness and
    no contrast; but an empty crop x or y counts as 0, so that the crop
    is the one of the state with "0" in its place. *)
Theorem empty_fields ops brightness contrast :
  (Blur.radius (blur ops) = "" →
   parsedOps ops brightness contrast !! "blur" = None) ∧
  (Resize.width (resize ops) = "" ∨ Resize.height (resize ops) = "" →
   parsedOps ops brightness contrast !! "resize" = None) ∧
  (Crop.width (crop ops) = "" ∨ Crop.height (crop ops) = "" →
   parsedOps ops brightness contrast !! "crop" = None) ∧
  (brightness = "" →
   parsedOps ops brightness contrast !! "brightness" = None) ∧
  (contrast = "" →
   parsedOps ops brightness contrast !! "contrast" = None) ∧
  (Crop.x (crop ops) = "" →
   parsedOps ops brightness contrast !! "crop" =
   parsedOps (with_crop "0" (Crop.y (crop ops)) (Crop.width (crop ops))
                (Crop.height (crop ops)) ops) brightness contrast !! "crop") ∧
  (Crop.y (crop ops) = "" →
   parsedOps ops brightness contrast !! "crop" =
   parsedOps (with_crop (Crop.x (crop ops)) "0" (Crop.width (crop ops))
                (Crop.height (crop ops)) ops) brightness contrast !! "crop").
Proof.
  destruct empty_text_rules as (Hone & Hzero & Hfactor & Hblur).
  repeat split.
  - intros Hr. rewrite lookup_blur. cbv zeta. by rewrite Hr, Hblur.
  - intros [Hw|Hh]; rewrite lookup_resize; cbv zeta.
    + by rewrite Hw, Hone.
    + by rewrite Hh, Hone, andb_false_r.
  - intros [Hw|Hh]; rewrite lookup_crop; cbv zeta.
    + by rewrite Hw, Hone, andb_false_r.
    + by rewrite Hh, Hone, andb_false_r.
  - intros ->. by rewrite lookup_brightness, Hfactor.
  - intros ->. by rewrite lookup_contrast, Hfactor.
  - intros Hx. rewrite !lookup_crop. cbv zeta. simpl. by rewrite Hx.
  - intros Hy. rewrite !lookup_crop. cbv zeta. simpl. by rewrite Hy.
Qed.

(** ** Further properties of the field patch *)

Section Paths.

Implicit Types (root key path rest : string) (prev : gmap string property).

Lemma split_dot_nonempty path : split_dot path ≠ [].
Proof.
  destruct path as [|c path]; simpl; [done|].
  destruct (c =? ".")%char; [done|]. by destruct (split_dot path).
Qed.

Lemma dotless_cons c s :
  dotless (String c s) = negb (c =? ".")%char && dotless s.
Proof. reflexivity. Qed.

Lemma concat_cons sep x (l : list string) :
  l ≠ [] → String.concat sep (x :: l) = x +:+ sep +:+ String.concat sep l.
Proof. by destruct l. Qed.

(** A dot-free first segment is split off at the first dot. *)
Lemma split_dot_cons root rest :
  dotless root = true →
  split_dot (root +:+ "." +:+ rest) = root :: split_dot rest.
Proof.
  induction root as [|c root IH]; intros Hroot; [done|].
  rewrite dotless_cons in Hroot. apply andb_true_iff in Hroot as [Hc Hroot].
  change (String c root +:+ "." +:+ rest)
    with (String c (root +:+ "." +:+ rest)).
  cbn [split_dot]. rewrite IH by done.
  by destruct (c =? ".")%char.
Qed.

Lemma updateOps_patch path value prev :
  updateOps path value prev = patch (target path) value prev.
Proof.
  unfold updateOps, target, patch.
  pose proof (split_dot_nonempty path).
  destruct (split_dot path) as [|root [|key rest]]; [done|done|].
  by destruct (bool_decide (key ≠ "")).
Qed.


Lemma assign_assign k v1 v2 (o : gmap string property) :
  assign k v2 (assign k v1 o) = assign k v2 o.
Proof.
  unfold assign.
  destruct (bool_decide (k = "__proto__") && bool_decide (o !! k = None))
    eqn:Hguard.
  - by rewrite Hguard.
  - rewrite lookup_insert_eq.
    rewrite (bool_decide_eq_false_2 (Some v1 = None)) by done.
    rewrite andb_false_r. apply insert_insert_eq.
Qed.


End Paths.

(** X6. [path.split('.')] cuts a path at its dots and nowhere else: the
    segments hold no dot, there is at least one, and joining them with
    dots gives the path back. *)
Theorem split_dot_round_trip (path : string) :
  String.concat "." (split_dot path) = path ∧
  Forall (λ segment, dotless segment = true) (split_dot path) ∧
  split_dot path ≠ [].
Proof.
  split; [|split; [|apply split_dot_nonempty]].
  - induction path as [|c path IH]; [done|]. cbn [split_dot].
    pose proof (split_dot_nonempty path).
    destruct (Ascii.eqb_spec c ".") as [->|Hc].
    + rewrite concat_cons by done. by rewrite IH.
    + destruct (split_dot path) as [|s l] eqn:Hs; [done|].
      destruct l as [|s' l].
      * simpl in *. by rewrite IH.
      * rewrite concat_cons in * by done. by rewrite <- IH.
  - induction path as [|c path IH]; [by repeat constructor|].
    cbn [split_dot].
    destruct (Ascii.eqb_spec c ".") as [->|Hc]; [by constructor|].
    pose proof (split_dot_nonempty path).
    destruct (split_dot path) as [|s l]; [done|].
    inversion IH as [|? ? Hs Hl]; subst. constructor; [|done].
    rewrite dotless_cons, Hs, andb_true_r.
    apply negb_true_iff. by apply Ascii.eqb_neq.
Qed.

(** X7. Only the first two segments of a path count: whatever follows a
    second dot is ignored, and a path that ends in a dot after its first
    segment is the top-level path of that segment. *)
Theorem updateOps_reads_two_segments
    (root key rest : string) (value : primitive)
    (prev : gmap string property) :
  dotless root = true → dotless key = true →
  updateOps (root +:+ "." +:+ key +:+ "." +:+ rest) value prev
  = updateOps (root +:+ "." +:+ key) value prev ∧
  updateOps (root +:+ ".") value prev = updateOps root value prev.
Proof.
  intros Hroot Hkey. unfold updateOps. split.
  - rewrite !split_dot_cons by done.
    by rewrite (split_dot_dotless key) by done.
  - change (root +:+ ".") with (root +:+ "." +:+ "").
    rewrite (split_dot_cons root ""), (split_dot_dotless root) by done.
    cbn [split_dot]. by rewrite bool_decide_eq_false_2 by (intros H; by apply H).
Qed.

(** X8. The last write wins: patching the same path twice is patching it
    once with the second value, for every path and every state. *)
Theorem updateOps_last_write_wins
    (path : string) (v1 v2 : primitive) (prev : gmap string property) :
  updateOps path v2 (updateOps path v1 prev) = updateOps path v2 prev.
Proof.
  rewrite !updateOps_patch. destruct (target path) as [root [key|]]; simpl.
  - rewrite assign_assign. f_equal. f_equal.
    unfold assign.
    destruct (bool_decide (root = "__proto__")
              && bool_decide (prev !! root = None)); [done|].
    rewrite lookup_insert_eq. simpl. apply insert_insert_eq.
  - apply assign_assign.
Qed.


Lemma handle_apply_change (c : change) (ops : Ops) :
  handle c (object_of_ops ops) = object_of_ops (apply_change c ops).
Proof.
  destruct c as [v|v|v|v|v|v|b|v]; simpl.
  - apply (handlers_preserve_shape ops v false).
  - apply (handlers_preserve_shape ops v false).
  - apply (handlers_preserve_shape ops v false).
  - apply (handlers_preserve_shape ops v false).
  - apply (handlers_preserve_shape ops v false).
  - apply (handlers_preserve_shape ops v false).
  - apply (handlers_preserve_shape ops "" b).
  - apply (handlers_preserve_shape ops v false).
Qed.

(** X10. The form state keeps the shape of [initialOps]: after any
    sequence of change events of the inputs, the object the handlers
    have built is the one of the typed state updated field by field,
    with the same two groups of texts, the blur group, and the two
    boolean flags. *)
Theorem handlers_keep_shape (changes : list change) (ops : Ops) :
  fold_left (λ prev c, handle c prev) changes (object_of_ops ops)
  = object_of_ops (fold_left (λ o c, apply_change c o) changes ops).
Proof.
  revert ops. induction changes as [|c changes IH]; intros ops; [done|].
  simpl. by rewrite handle_apply_change, IH.
Qed.

(** X11. A two-level patch whose first segment is absent from the state,
    or names a boolean flag, stores a fresh group that holds the patched
    key alone; a flag under that name is lost. *)
Theorem two_level_patch_makes_a_group
    (root key : string) (value : primitive) (prev : gmap string property) :
  dotless root = true → dotless key = true → key ≠ "" →
  root ≠ "__proto__" →
  (prev !! root = None ∨ ∃ b, prev !! root = Some (Leaf (Bool b))) →
  updateOps (root +:+ "." +:+ key) value prev !! root
  = Some (Group {[ key := value ]}).
Proof.
  intros Hroot Hkey Hne Hproto Hprev. unfold updateOps.
  rewrite split_dot_two_level by done.
  rewrite bool_decide_eq_true_2 by done.
  unfold assign. rewrite (bool_decide_eq_false_2 (root = _)) by done.
  cbn [andb]. rewrite lookup_insert_eq.
  by destruct Hprev as [->|[b ->]].
Qed.

(** ** Further properties of the flows *)

(** *** What a flow leaves alone *)

Section Keeps.

Context {T A B : Type}.
Variable proj : Session → T.
Variable backend : Request → Error + Response.

Lemma keeps_ret (a : A) : keeps proj (mret a).
Proof. by intros w. Qed.

Lemma keeps_throw (e : Error) : keeps proj (@throw A e).
Proof. by intros w. Qed.

Lemma keeps_lift (x : Error + A) : keeps proj (lift x).
Proof. by intros w. Qed.

Lemma keeps_fetch req : keeps proj (fetch backend req).
Proof. by intros w. Qed.

Lemma keeps_res_json res : keeps proj (res_json res).
Proof. by intros w. Qed.

Lemma keeps_set f : (∀ s, proj (f s) = proj s) → keeps proj (set f).
Proof. intros Hf w. apply Hf. Qed.

Lemma keeps_bind (m : Flow A) (k : A → Flow B) :
  keeps proj m → (∀ a, keeps proj (k a)) → keeps proj (m ≫= k).
Proof.
  intros Hm Hk w. specialize (Hm w).
  unfold mbind, Flow_bind, bind.
  destruct (m w) as [[e|a] w1]; simpl in *; [done|].
  by rewrite Hk.
Qed.

Lemma keeps_try_catch (m : Flow A) (h : Error → Flow A) :
  keeps proj m → (∀ e, keeps proj (h e)) → keeps proj (try_catch m h).
Proof.
  intros Hm Hh w. specialize (Hm w). unfold try_catch.
  destruct (m w) as [[e|a] w1]; simpl in *; [|done].
  by rewrite Hh.
Qed.

Lemma keeps_try_finally (m : Flow A) (c : Flow unit) :
  keeps proj m → keeps proj c → keeps proj (try_finally m c).
Proof.
  intros Hm Hc w. specialize (Hm w). unfold try_finally.
  destruct (m w) as [r w1]; simpl in *. specialize (Hc w1).
  destruct (c w1) as [[e|[]] w2]; simpl in *; congruence.
Qed.

Lemma keeps_if (c : bool) (m1 m2 : Flow A) :
  keeps proj m1 → keeps proj m2 → keeps proj (if c then m1 else m2).
Proof. by destruct c. Qed.

End Keeps.

Lemma keeps_safeReadJson {T} (proj : Session → T) res :
  keeps proj (safeReadJson res).
Proof.
  apply keeps_try_catch; [apply keeps_res_json|]. intros e. apply keeps_ret.
Qed.

Lemma keeps_detail_or {T} (proj : Session → T) msg fallback :
  keeps proj (detail_or msg fallback).
Proof.
  apply keeps_bind; [|intros d; apply keeps_ret].
  destruct msg; first [apply keeps_ret | apply keeps_lift].
Qed.

Lemma keeps_throw_new_Error {T A} (proj : Session → T) NumberToString v :
  keeps proj (@throw_new_Error NumberToString A v).
Proof.
  apply keeps_bind; [apply keeps_lift|]. intros text. apply keeps_throw.
Qed.

(** Walks down the structure of a flow; a setter has to leave the
    component alone. *)
Ltac keeps_steps :=
  repeat first
    [ assumption
    | apply keeps_ret | apply keeps_throw | apply keeps_lift
    | apply keeps_fetch | apply keeps_res_json
    | apply keeps_safeReadJson | apply keeps_detail_or
    | apply keeps_throw_new_Error
    | apply keeps_set; solve [intros []; reflexivity]
    | apply keeps_bind; [|intros ?]
    | apply keeps_try_catch; [|intros ?]
    | apply keeps_try_finally
    | apply keeps_if ].

Section Frames.

Variable NumberToString : number → string.
Variable backend : Request → Error + Response.

Lemma fetchImages_keeps_form r : keeps form_fields (fetchImages backend r).
Proof. unfold fetchImages. keeps_steps. Qed.

(** X12. No flow writes to the form: the list refresh, the upload flow
    and the process flow leave the operation fields and the brightness
    and contrast texts as they found them, however the backend
    answers. *)
Theorem flows_keep_the_form r :
  keeps form_fields (fetchImages backend r) ∧
  keeps form_fields (doUpload NumberToString backend r) ∧
  keeps form_fields (doProcess NumberToString backend r).
Proof.
  split; [apply fetchImages_keeps_form|]. split.
  - unfold doUpload. destruct (file r); keeps_steps.
  - unfold doProcess. cbv zeta. keeps_steps.
Qed.

Lemma fetchImages_keeps_rest r :
  keeps (λ s, (uploading s, processing s, file s, notice s))
    (fetchImages backend r).
Proof. unfold fetchImages. keeps_steps. Qed.

(** X13. Each flow keeps to its own part of the session: the upload flow
    never writes the processing flag, the process flow never writes the
    uploading flag nor the selected file, and the list refresh writes
    neither busy flag, nor the file, nor the notice. *)
Theorem flows_keep_to_their_part r :
  keeps processing (doUpload NumberToString backend r) ∧
  keeps (λ s, (uploading s, file s)) (doProcess NumberToString backend r) ∧
  keeps (λ s, (uploading s, processing s, file s, notice s))
    (fetchImages backend r).
Proof.
  split; [|split].
  - unfold doUpload. destruct (file r); keeps_steps.
  - unfold doProcess. cbv zeta. keeps_steps.
  - apply fetchImages_keeps_rest.
Qed.

(** *** The list refresh, seen from the flows that call it *)

Lemma fetchImages_returns r w : fst (fetchImages backend r w) = inr tt.
Proof. apply try_catch_set_total. Qed.

Lemma fetchImages_calls r w :
  calls (snd (fetchImages backend r w)) = (calls w ++ [GET_images])%list.
Proof.
  unfold fetchImages, try_catch, fetch, res_json, lift, set, throw.
  unfold mbind, mret, Flow_bind, Flow_ret, bind, ret.
  destruct (backend GET_images) as [e|res]; [done|].
  destruct (ok res); cbn [negb]; [|done].
  destruct (json res) as [e|data]; [done|].
  destruct (ToBoolean (selectedImageId r)); [done|].
  cbn. repeat case_match; simplify_eq/=; done.
Qed.

Lemma fetchImages_images r w :
  images (session (snd (fetchImages backend r w))) =
  match parsed_reply backend GET_images with
  | Some data => data
  | None => images (session w)
  end.
Proof.
  unfold parsed_reply.
  unfold fetchImages, try_catch, fetch, res_json, lift, set, throw.
  unfold mbind, mret, Flow_bind, Flow_ret, bind, ret.
  destruct (backend GET_images) as [e|res]; [done|].
  destruct (ok res); cbn [negb]; [|done].
  destruct (json res) as [e|data]; [done|].
  destruct (ToBoolean (selectedImageId r)); [done|].
  cbn. repeat case_match; simplify_eq/=; done.
Qed.

Lemma fetchImages_keeps_selection r :
  ToBoolean (selectedImageId r) = true →
  keeps selectedImageId (fetchImages backend r).
Proof. intros Hsel. unfold fetchImages. rewrite Hsel. keeps_steps. Qed.

End Frames.

(** *** Stepping through a flow *)

Section Steps.

Context {A : Type}.
Variable NumberToString : number → string.
Variable backend : Request → Error + Response.

Lemma fetch_bind req (k : Response → Flow A) w :
  (fetch backend req ≫= k) w =
  match backend req with
  | inl e => (inl e, sent req w)
  | inr res => k res (sent req w)
  end.
Proof. unfold mbind, Flow_bind, bind, fetch. by destruct (backend req). Qed.

Lemma lift_bind {B} (x : Error + B) (k : B → Flow A) w :
  (lift x ≫= k) w =
  match x with
  | inl e => (inl e, w)
  | inr b => k b w
  end.
Proof. unfold mbind, Flow_bind, bind, lift. by destruct x. Qed.

Lemma res_json_bind res (k : value → Flow A) w :
  (res_json res ≫= k) w =
  match json res with
  | inl e => (inl e, w)
  | inr data => k data w
  end.
Proof. apply lift_bind. Qed.

Lemma set_bind f (k : Flow A) w : (set f ;; k) w = k (after f w).
Proof. reflexivity. Qed.

Lemma ret_bind {B} (b : B) (k : B → Flow A) w : (mret b ≫= k) w = k b w.
Proof. reflexivity. Qed.

(** The test of [res.ok] at the head of both flows. *)
Lemma refusal_bind fallback res (k : unit → Flow A) w :
  ((if negb (ok res)
    then msg ← safeReadJson res;
         v ← detail_or msg fallback;
         throw_new_Error NumberToString v
    else mret tt) ≫= k) w =
  if ok res then k tt w else (inl (refusal NumberToString fallback res), w).
Proof.
  destruct (ok res); [done|]. cbn [negb].
  unfold refusal, safeReadJson, detail_or, throw_new_Error, try_catch,
    res_json, lift, throw.
  unfold mbind, mret, Flow_bind, Flow_ret, bind, ret.
  destruct (json res) as [e|msg]; simpl; [done|].
  destruct msg; simpl; repeat case_match; simplify_eq/=; done.
Qed.

End Steps.

(** *** The flows, executed *)

Section Runs.

Variable NumberToString : number → string.
Variable backend : Request → Error + Response.

Implicit Types (r : Session) (w : World).

(** The list refresh never throws, so what follows it always runs. *)
Lemma fetchImages_bind {A} r (k : unit → Flow A) w :
  (fetchImages backend r ≫= k) w = k tt (snd (fetchImages backend r w)).
Proof.
  pose proof (fetchImages_returns backend r w) as Hret.
  unfold mbind, Flow_bind, bind.
  destruct (fetchImages backend r w) as [[e|[]] w1]; simpl in *; done.
Qed.

(** The process flow past its preconditions, case by case on the answer
    of the backend. *)
Lemma doProcess_run r w :
  ToBoolean (selectedImageId r) = true →
  let req := POST_process (selectedImageId r)
               (parsedOps (ops r) (brightness r) (contrast r)) in
  let w0 := sent req (after (setNotice "") (after (setError "")
                        (after (setProcessing true) w))) in
  let failed e :=
    (inr tt, after (setProcessing false) (after (setError (error_text e)) w0)) in
  doProcess NumberToString backend r w =
  match backend req with
  | inl e => failed e
  | inr res =>
      if ok res then
        match json res with
        | inl e => failed e
        | inr _ =>
            (inr tt,
             after (setProcessing false)
               (snd (fetchImages backend r
                       (after (setNotice "Processing complete.") w0))))
        end
      else failed (refusal NumberToString
                     ("Process failed (" +:+ pretty (status res) +:+ ")") res)
  end.
Proof.
  intros Hsel. cbv zeta. unfold doProcess. cbv zeta.
  rewrite Hsel. cbn [negb].
  rewrite bool_decide_eq_false_2 by apply parsedOps_nonempty.
  rewrite !set_bind, try_finally_set. unfold try_catch.
  rewrite fetch_bind.
  destruct (backend _) as [e|res]; [done|].
  rewrite refusal_bind. destruct (ok res); [|done].
  rewrite res_json_bind. destruct (json res) as [e|data]; [done|].
  rewrite set_bind.
  pose proof (fetchImages_returns backend r
                (after (setNotice "Processing complete.")
                   (sent (POST_process (selectedImageId r)
                            (parsedOps (ops r) (brightness r) (contrast r)))
                      (after (setNotice "") (after (setError "")
                         (after (setProcessing true) w)))))) as Hret.
  destruct (fetchImages backend r _) as [x w1]. simpl in Hret. by subst x.
Qed.

(** The upload flow past its precondition, case by case on the answer of
    the backend. *)
Lemma doUpload_run r w f :
  file r = Some f →
  let req := POST_upload f in
  let w0 := sent req (after (setNotice "") (after (setError "")
                        (after (setUploading true) w))) in
  let failed e w' :=
    (inr tt, after (setUploading false) (after (setError (error_text e)) w')) in
  doUpload NumberToString backend r w =
  match backend req with
  | inl e => failed e w0
  | inr res =>
      if ok res then
        match json res with
        | inl e => failed e w0
        | inr data =>
            let w1 := snd (fetchImages backend r
                             (after (setFile None)
                                (after (setNotice "Upload successful.") w0))) in
            match get_named "image_id" data with
            | inr id =>
                (inr tt,
                 after (setUploading false) (after (setSelectedImageId id) w1))
            | inl e => failed e w1
            end
        end
      else failed (refusal NumberToString
                     ("Upload failed (" +:+ pretty (status res) +:+ ")") res)
                  w0
  end.
Proof.
  intros Hfile. cbv zeta. unfold doUpload. rewrite Hfile.
  rewrite !set_bind, try_finally_set. unfold try_catch.
  rewrite fetch_bind.
  destruct (backend _) as [e|res]; [done|].
  rewrite refusal_bind. destruct (ok res); [|done].
  rewrite res_json_bind. destruct (json res) as [e|data]; [done|].
  rewrite !set_bind, fetchImages_bind, lift_bind.
  by destruct (get_named "image_id" data).
Qed.

Lemma refusal_detail fallback res props d :
  json res = inr (VObject props) →
  own_property props "detail" = Some (VString d) → d ≠ "" →
  error_text (refusal NumberToString fallback res) = d.
Proof.
  intros Hjson Hdetail Hd. unfold refusal. rewrite Hjson, Hdetail. simpl.
  rewrite bool_decide_eq_true_2 by done. simpl.
  unfold error_text. simpl. by rewrite bool_decide_eq_false_2.
Qed.

Lemma refusal_fallback fallback res :
  fallback ≠ "" →
  match json res with
  | inl _ => True
  | inr (VObject props) => own_property props "detail" = None
  | inr _ => True
  end →
  error_text (refusal NumberToString fallback res) = fallback.
Proof.
  intros Hfb Hjson. unfold refusal.
  destruct (json res) as [e|[| | | | | |props]]; simpl;
    rewrite ?Hjson; simpl;
    unfold error_text; simpl; by rewrite bool_decide_eq_false_2.
Qed.

(** X14. A process flow started with a selection never changes the
    selection and ends with its busy flag false. When its request is
    answered 2xx with a JSON body, it sets the notice "Processing
    complete." and refreshes the list exactly once; otherwise it sends
    nothing more, sets no notice and leaves the image list as it was. *)
Theorem process_outcome r w :
  ToBoolean (selectedImageId r) = true →
  let req := POST_process (selectedImageId r)
               (parsedOps (ops r) (brightness r) (contrast r)) in
  let out := doProcess NumberToString backend r w in
  let s := session w in
  let s' := session (snd out) in
  selectedImageId s' = selectedImageId s ∧
  processing s' = false ∧
  match parsed_reply backend req with
  | Some _ =>
      calls (snd out) = (calls w ++ [req; GET_images])%list ∧
      notice s' = "Processing complete." ∧
      images s' = match parsed_reply backend GET_images with
                  | Some data => data
                  | None => images s
                  end
  | None =>
      calls (snd out) = (calls w ++ [req])%list ∧
      notice s' = "" ∧
      images s' = images s
  end.
Proof.
  intros Hsel. cbv zeta. rewrite doProcess_run by done. cbv zeta.
  unfold parsed_reply at 1.
  destruct (backend (POST_process _ _)) as [e|res]; [done|].
  destruct (ok res); [|done].
  destruct (json res) as [e|data]; [done|].
  set (w1 := after (setNotice "Processing complete.") _).
  pose proof (fetchImages_keeps_selection backend r Hsel w1) as Hkeep.
  pose proof (fetchImages_keeps_rest backend r w1) as Hrest.
  pose proof (fetchImages_calls backend r w1) as Hcalls.
  pose proof (fetchImages_images backend r w1) as Himages.
  simpl in *. injection Hrest as _ _ _ Hnotice.
  rewrite Hkeep, Hcalls, Himages, Hnotice.
  repeat split; try done. by rewrite <- app_assoc.
Qed.

(** X15. When an upload is rejected, answered with a status that is not
    2xx, or answered with a body that is not JSON, the flow sends nothing
    more than the upload, sets no notice, and leaves the image list, the
    selection and the chosen file as they were; the busy flag is false
    again. *)
Theorem upload_failure_keeps_the_session r w f :
  file r = Some f →
  parsed_reply backend (POST_upload f) = None →
  let out := doUpload NumberToString backend r w in
  let s := session w in
  let s' := session (snd out) in
  calls (snd out) = (calls w ++ [POST_upload f])%list ∧
  images s' = images s ∧
  selectedImageId s' = selectedImageId s ∧
  file s' = file s ∧
  notice s' = "" ∧
  uploading s' = false.
Proof.
  intros Hfile Hreply. cbv zeta. rewrite (doUpload_run r w f) by done.
  cbv zeta. unfold parsed_reply in Hreply.
  destruct (backend (POST_upload f)) as [e|res]; [done|].
  destruct (ok res); [|done].
  destruct (json res) as [e|data]; done.
Qed.

(** X16. When an upload is answered 2xx with a JSON body, the flow sets
    the notice "Upload successful.", clears the chosen file, refreshes
    the list exactly once, and then selects the [image_id] of the body
    (for an object body, its own property of that name), whatever the
    refresh selected and whether or not the refresh succeeded. *)
Theorem upload_success_selects_the_new_image r w f data id :
  file r = Some f →
  parsed_reply backend (POST_upload f) = Some data →
  get_named "image_id" data = inr id →
  let out := doUpload NumberToString backend r w in
  let s := session w in
  let s' := session (snd out) in
  calls (snd out) = (calls w ++ [POST_upload f; GET_images])%list ∧
  notice s' = "Upload successful." ∧
  file s' = None ∧
  selectedImageId s' = id ∧
  uploading s' = false ∧
  images s' = match parsed_reply backend GET_images with
              | Some listed => listed
              | None => images s
              end.
Proof.
  intros Hfile Hreply Hid. cbv zeta. rewrite (doUpload_run r w f) by done.
  cbv zeta. unfold parsed_reply in Hreply.
  destruct (backend (POST_upload f)) as [e|res]; [done|].
  destruct (ok res); [|done].
  destruct (json res) as [e|data']; [done|]. injection Hreply as ->.
  rewrite Hid.
  set (w1 := after (setFile None) _).
  pose proof (fetchImages_keeps_rest backend r w1) as Hrest.
  pose proof (fetchImages_calls backend r w1) as Hcalls.
  pose proof (fetchImages_images backend r w1) as Himages.
  simpl in *. injection Hrest as _ _ Hfile' Hnotice.
  rewrite Hcalls, Himages, Hnotice, Hfile'.
  repeat split; try done. by rewrite <- app_assoc.
Qed.

(** X17. A failed upload is reported in the error: the message of the
    rejection or of the JSON error; for a status that is not 2xx, the
    [detail] string of an object body when it is there and not empty,
    and "Upload failed (status)" when the body is not JSON, is not an
    object, or is an object without [detail]. *)
Theorem upload_reports_the_failure r w f :
  file r = Some f →
  let s' := session (snd (doUpload NumberToString backend r w)) in
  match backend (POST_upload f) with
  | inl e => error s' = error_text e
  | inr res =>
      if ok res then
        match json res with
        | inl e => error s' = error_text e
        | inr _ => True
        end
      else
        (∀ props d,
           json res = inr (VObject props) →
           own_property props "detail" = Some (VString d) → d ≠ "" →
           error s' = d) ∧
        (match json res with
         | inr (VObject props) => own_property props "detail" = None
         | _ => True
         end →
         error s' = "Upload failed (" +:+ pretty (status res) +:+ ")")
  end.
Proof.
  intros Hfile. cbv zeta. rewrite (doUpload_run r w f) by done. cbv zeta.
  destruct (backend (POST_upload f)) as [e|res]; [done|].
  destruct (ok res).
  - by destruct (json res).
  - split.
    + intros props d Hjson Hdetail Hd. simpl.
      by apply refusal_detail with props.
    + intros Hjson. simpl. apply refusal_fallback; [done|].
      by destruct (json res) as [|[]].
Qed.

(** X18. A failed process request is reported in the same way, with the
    fallback "Process failed (status)". *)
Theorem process_reports_the_failure r w :
  ToBoolean (selectedImageId r) = true →
  let s' := session (snd (doProcess NumberToString backend r w)) in
  match backend (POST_process (selectedImageId r)
                   (parsedOps (ops r) (brightness r) (contrast r))) with
  | inl e => error s' = error_text e
  | inr res =>
      if ok res then
        match json res with
        | inl e => error s' = error_text e
        | inr _ => True
        end
      else
        (∀ props d,
           json res = inr (VObject props) →
           own_property props "detail" = Some (VString d) → d ≠ "" →
           error s' = d) ∧
        (match json res with
         | inr (VObject props) => own_property props "detail" = None
         | _ => True
         end →
         error s' = "Process failed (" +:+ pretty (status res) +:+ ")")
  end.
Proof.
  intros Hsel. cbv zeta. rewrite doProcess_run by done. cbv zeta.
  destruct (backend (POST_process _ _)) as [e|res]; [done|].
  destruct (ok res).
  - by destruct (json res).
  - split.
    + intros props d Hjson Hdetail Hd. simpl.
      by apply refusal_detail with props.
    + intros Hjson. simpl. apply refusal_fallback; [done|].
      by destruct (json res) as [|[]].
Qed.

(** X19. Triggered with no selection, the process flow sets the error to
    "Please select an image to process.", sends no request and changes
    nothing else in the session. *)
Theorem process_without_selection r w :
  ToBoolean (selectedImageId r) = false →
  doProcess NumberToString backend r w
  = (inr tt, after (setError "Please select an image to process.") w).
Proof. intros Hsel. unfold doProcess. cbv zeta. by rewrite Hsel. Qed.

(** X20. The buttons guard the preconditions: in a render where the
    upload button is enabled the upload flow sends the upload of the
    chosen file, and in a render where the apply button is enabled the
    process flow sends the process request for the selection; neither
    validation error can come from an enabled button. *)
Theorem enabled_buttons_pass_the_preconditions r w :
  (upload_disabled r = false →
   ∃ f rest,
     file r = Some f ∧
     calls (snd (doUpload NumberToString backend r w))
     = (calls w ++ POST_upload f :: rest)%list) ∧
  (apply_disabled r = false →
   ∃ rest,
     calls (snd (doProcess NumberToString backend r w))
     = (calls w
        ++ POST_process (selectedImageId r)
             (parsedOps (ops r) (brightness r) (contrast r)) :: rest)%list).
Proof.
  split.
  - intros [_ Hfile]%orb_false_iff. apply negb_false_iff in Hfile.
    apply bool_decide_eq_true in Hfile as [f Hfile].
    exists f. rewrite (doUpload_run r w f) by done. cbv zeta.
    destruct (backend (POST_upload f)) as [e|res]; [by exists []|].
    destruct (ok res); [|by exists []].
    destruct (json res) as [e|data]; [by exists []|].
    exists [GET_images]. split; [done|].
    destruct (get_named "image_id" data); simpl;
      rewrite fetchImages_calls; simpl; by rewrite <- app_assoc.
  - intros [_ Hsel]%orb_false_iff. apply negb_false_iff in Hsel.
    unfold hasImage in Hsel.
    rewrite doProcess_run by done. cbv zeta.
    destruct (backend (POST_process _ _)) as [e|res]; [by exists []|].
    destruct (ok res); [|by exists []].
    destruct (json res) as [e|data]; [by exists []|].
    exists [GET_images]. simpl.
    rewrite fetchImages_calls. simpl. by rewrite <- app_assoc.
Qed.

(** X21. A change of the file input clears both status messages and
    touches nothing but the chosen file; an upload started from the new
    render sends the first file of the input, or, when the input holds no
    file, sends nothing and asks for one. *)
Theorem file_change_then_upload (files : option (list File)) s w :
  let r := onFileChange files s in
  error r = "" ∧ notice r = "" ∧
  images r = images s ∧ selectedImageId r = selectedImageId s ∧
  form_fields r = form_fields s ∧
  match files ≫= head with
  | Some f =>
      file r = Some f ∧
      ∃ rest, calls (snd (doUpload NumberToString backend r w))
              = (calls w ++ POST_upload f :: rest)%list
  | None =>
      doUpload NumberToString backend r w
      = (inr tt, after (setError "Please choose an image to upload.") w)
  end.
Proof.
  cbv zeta. repeat split; try done.
  destruct (files ≫= head) as [f|] eqn:Hhead.
  - split; [by simpl|].
    rewrite (doUpload_run _ w f) by (by simpl). cbv zeta.
    destruct (backend (POST_upload f)) as [e|res]; [by exists []|].
    destruct (ok res); [|by exists []].
    destruct (json res) as [e|data]; [by exists []|].
    exists [GET_images].
    destruct (get_named "image_id" data); simpl;
      rewrite fetchImages_calls; simpl; by rewrite <- app_assoc.
  - unfold doUpload, onFileChange. simpl. by rewrite Hhead.
Qed.

(** X22. Reset puts the form back to its defaults and touches nothing
    else: the normalized set of the new render holds the grayscale key
    alone, with the value false, a second reset changes nothing, and an
    apply from that render, when an image is selected, sends exactly
    that set. *)
Theorem reset_restores_the_defaults s w :
  let r := resetOps s in
  parsedOps (ops r) (brightness r) (contrast r)
  = {[ "grayscale" := Flag false ]} ∧
  resetOps r = r ∧
  images r = images s ∧ selectedImageId r = selectedImageId s ∧
  file r = file s ∧ error r = error s ∧ notice r = notice s ∧
  uploading r = uploading s ∧ processing r = processing s ∧
  (hasImage s = true →
   ∃ rest,
     calls (snd (doProcess NumberToString backend r w))
     = (calls w
        ++ POST_process (selectedImageId s) {[ "grayscale" := Flag false ]}
           :: rest)%list).
Proof.
  cbv zeta. split; [apply parsedOps_initial|]. repeat split; try done.
  intros Hsel. unfold hasImage in Hsel.
  rewrite doProcess_run by done. cbv zeta.
  change (parsedOps (ops (resetOps s)) (brightness (resetOps s))
            (contrast (resetOps s)))
    with (parsedOps initialOps "1" "1").
  rewrite parsedOps_initial.
  destruct (backend (POST_process _ _)) as [e|res]; [by exists []|].
  destruct (ok res); [|by exists []].
  destruct (json res) as [e|data]; [by exists []|].
  exists [GET_images]. simpl.
  rewrite fetchImages_calls. simpl. by rewrite <- app_assoc.
Qed.

End Runs.

(** *** The addresses of the images *)

(** X23. The address of an original determines its id, and so does the
    address of a variant; the two kinds of address collide exactly when
    the id of the original is "processed/" followed by the id of the
    variant. *)
Theorem image_addresses (NumberToString : number → string) (a b : string) :
  (buildImageUrl NumberToString (VString a)
   = buildImageUrl NumberToString (VString b) → a = b) ∧
  (buildVariantUrl NumberToString (VString a)
   = buildVariantUrl NumberToString (VString b) → a = b) ∧
  (buildImageUrl NumberToString (VString a)
   = buildVariantUrl NumberToString (VString b) ↔ a = "processed/" +:+ b).
Proof.
  unfold buildImageUrl, buildVariantUrl, API_BASE. simpl.
  cbv [String.app].
  split; [congruence|]. split; [congruence|].
  split; [congruence|by intros ->].
Qed.


(** *** Instances of the further conditional theorems *)

Lemma resize_payload_positive_integers_witness :
  parsedOps sample_ops "1" "1" !! "resize"
  = Some (ResizeOp (Number "800") (Number "600")) ∧
  ∃ zw zh,
    integer_value (Number "800") = Some zw ∧
    integer_value (Number "600") = Some zh ∧
    floor_value (Number "800.7") = Some zw ∧
    floor_value (Number "600") = Some zh ∧ 1 <= zw ∧ 1 <= zh.
Proof.
  split; [vm_compute; reflexivity|].
  apply (resize_payload_positive_integers sample_ops "1" "1").
  vm_compute. reflexivity.
Defined.

Lemma crop_payload_integers_witness :
  parsedOps sample_ops "1" "1" !! "crop"
  = Some (CropOp (Number "10") zero (Number "100") (Number "50")) ∧
  ∃ zx zy zw zh,
    integer_value (Number "10") = Some zx ∧ integer_value zero = Some zy ∧
    integer_value (Number "100") = Some zw ∧
    integer_value (Number "50") = Some zh ∧
    floor_value (Number "10.5") = Some zx ∧ floor_value (Number "") = Some zy ∧
    floor_value (Number "100") = Some zw ∧ floor_value (Number "50") = Some zh ∧
    0 <= zx ∧ 0 <= zy ∧ 1 <= zw ∧ 1 <= zh.
Proof.
  split; [vm_compute; reflexivity|].
  apply (crop_payload_integers sample_ops "1" "1").
  vm_compute. reflexivity.
Defined.

Lemma operations_are_independent_witness :
  resize sample_ops = resize (with_blur "2" sample_ops) ∧
  parsedOps sample_ops "1" "1" !! "resize"
  = parsedOps (with_blur "2" sample_ops) "1.5" "0.5" !! "resize".
Proof.
  split; [reflexivity|].
  apply (operations_are_independent sample_ops (with_blur "2" sample_ops)
           "1" "1.5" "1" "0.5").
  reflexivity.
Defined.

Lemma empty_fields_witness :
  Resize.width (resize initialOps) = "" ∧ Crop.y (crop sample_ops) = "" ∧
  parsedOps initialOps "1" "1" !! "resize" = None ∧
  parsedOps sample_ops "1" "1" !! "crop"
  = parsedOps (with_crop "10.5" "0" "100" "50" sample_ops) "1" "1" !! "crop".
Proof.
  split; [reflexivity|]. split; [reflexivity|]. split.
  - exact (proj1 (proj2 (empty_fields initialOps "1" "1"))
             (or_introl eq_refl)).
  - exact (proj2 (proj2 (proj2 (proj2 (proj2 (proj2
             (empty_fields sample_ops "1" "1")))))) eq_refl).
Defined.

Lemma updateOps_reads_two_segments_witness :
  updateOps "resize.width.px" (Str "800") (object_of_ops initialOps)
  = updateOps "resize.width" (Str "800") (object_of_ops initialOps) ∧
  updateOps "grayscale." (Bool true) (object_of_ops initialOps)
  = updateOps "grayscale" (Bool true) (object_of_ops initialOps).
Proof.
  split.
  - apply (updateOps_reads_two_segments "resize" "width" "px"); reflexivity.
  - apply (updateOps_reads_two_segments "grayscale" "width" "px"); reflexivity.
Defined.


Lemma two_level_patch_makes_a_group_witness :
  object_of_ops initialOps !! "tint" = None ∧
  updateOps "tint.hue" (Str "30") (object_of_ops initialOps) !! "tint"
  = Some (Group {[ "hue" := Str "30" ]}) ∧
  updateOps "grayscale.on" (Bool true) (object_of_ops initialOps) !! "grayscale"
  = Some (Group {[ "on" := Bool true ]}).
Proof.
  split; [vm_compute; reflexivity|]. split.
  - apply (two_level_patch_makes_a_group "tint" "hue");
      [reflexivity|reflexivity|discriminate|discriminate|].
    left. vm_compute. reflexivity.
  - apply (two_level_patch_makes_a_group "grayscale" "on");
      [reflexivity|reflexivity|discriminate|discriminate|].
    right. exists false. vm_compute. reflexivity.
Defined.

Lemma process_outcome_witness :
  ToBoolean (selectedImageId ready_session) = true ∧
  selectedImageId
    (session (snd (doProcess sample_NumberToString sample_backend
                     ready_session (start ready_session))))
  = VString "img-1".
Proof.
  split; [reflexivity|].
  exact (proj1 (process_outcome sample_NumberToString sample_backend
                  ready_session (start ready_session) eq_refl)).
Defined.

Lemma upload_failure_keeps_the_session_witness :
  file ready_session = Some sample_file ∧
  parsed_reply refusing_backend (POST_upload sample_file) = None ∧
  calls (snd (doUpload sample_NumberToString refusing_backend
                ready_session (start ready_session)))
  = [POST_upload sample_file].
Proof.
  split; [reflexivity|]. split; [reflexivity|].
  exact (proj1 (upload_failure_keeps_the_session sample_NumberToString
                  refusing_backend ready_session (start ready_session)
                  sample_file eq_refl eq_refl)).
Defined.

Lemma upload_success_selects_the_new_image_witness :
  file ready_session = Some sample_file ∧
  parsed_reply sample_backend (POST_upload sample_file)
  = Some (sample_image "img-2" "a.png") ∧
  get_named "image_id" (sample_image "img-2" "a.png") = inr (VString "img-2") ∧
  selectedImageId
    (session (snd (doUpload sample_NumberToString sample_backend
                     ready_session (start ready_session))))
  = VString "img-2".
Proof.
  split; [reflexivity|]. split; [reflexivity|]. split; [reflexivity|].
  pose proof (upload_success_selects_the_new_image sample_NumberToString
                sample_backend ready_session (start ready_session)
                sample_file (sample_image "img-2" "a.png") (VString "img-2")
                eq_refl eq_refl eq_refl) as H.
  cbv zeta in H. exact (proj1 (proj2 (proj2 (proj2 H)))).
Defined.

Lemma upload_reports_the_failure_witness :
  file ready_session = Some sample_file ∧
  error (session (snd (doUpload sample_NumberToString refusing_backend
                         ready_session (start ready_session))))
  = "Unsupported image".
Proof.
  split; [reflexivity|].
  pose proof (upload_reports_the_failure sample_NumberToString
                refusing_backend ready_session (start ready_session)
                sample_file eq_refl) as H.
  cbv zeta in H.
  apply (proj1 H [("detail", VString "Unsupported image")]);
    [reflexivity|reflexivity|discriminate].
Defined.

Lemma process_reports_the_failure_witness :
  ToBoolean (selectedImageId ready_session) = true ∧
  error (session (snd (doProcess sample_NumberToString unreachable_backend
                         ready_session (start ready_session))))
  = "Failed to fetch".
Proof.
  split; [reflexivity|].
  exact (process_reports_the_failure sample_NumberToString
           unreachable_backend ready_session (start ready_session) eq_refl).
Defined.

Lemma process_without_selection_witness :
  ToBoolean (selectedImageId initialSession) = false ∧
  doProcess sample_NumberToString sample_backend initialSession
    (start initialSession)
  = (inr tt,
     after (setError "Please select an image to process.")
       (start initialSession)).
Proof.
  split; [reflexivity|].
  apply (process_without_selection sample_NumberToString sample_backend).
  reflexivity.
Defined.

Lemma enabled_buttons_pass_the_preconditions_witness :
  upload_disabled ready_session = false ∧
  apply_disabled ready_session = false ∧
  (∃ f rest,
     file ready_session = Some f ∧
     calls (snd (doUpload sample_NumberToString sample_backend
                   ready_session (start ready_session)))
     = (calls (start ready_session) ++ POST_upload f :: rest)%list) ∧
  (∃ rest,
     calls (snd (doProcess sample_NumberToString sample_backend
                   ready_session (start ready_session)))
     = (calls (start ready_session)
        ++ POST_process (selectedImageId ready_session)
             (parsedOps (ops ready_session) (brightness ready_session)
                (contrast ready_session)) :: rest)%list).
Proof.
  split; [reflexivity|]. split; [reflexivity|]. split.
  - apply (proj1 (enabled_buttons_pass_the_preconditions
                    sample_NumberToString sample_backend
                    ready_session (start ready_session))).
    reflexivity.
  - apply (proj2 (enabled_buttons_pass_the_preconditions
                    sample_NumberToString sample_backend
                    ready_session (start ready_session))).
    reflexivity.
Defined.

Lemma reset_restores_the_defaults_witness :
  hasImage grayscale_session = true ∧
  ∃ rest,
    calls (snd (doProcess sample_NumberToString sample_backend
                  (resetOps grayscale_session) (start grayscale_session)))
    = (calls (start grayscale_session)
       ++ POST_process (selectedImageId grayscale_session)
            {[ "grayscale" := Flag false ]} :: rest)%list.
Proof.
  split; [reflexivity|].
  pose proof (reset_restores_the_defaults sample_NumberToString
                sample_backend grayscale_session (start grayscale_session))
    as H.
  cbv zeta in H.
  destruct H as (_ & _ & _ & _ & _ & _ & _ & _ & _ & H).
  apply H. reflexivity.
Defined.

Lemma image_addresses_witness :
  buildImageUrl sample_NumberToString (VString "processed/v-1")
  = buildVariantUrl sample_NumberToString (VString "v-1").
Proof.
  apply (proj2 (proj2 (proj2 (image_addresses sample_NumberToString
                                "processed/v-1" "v-1")))).
  reflexivity.
Defined.
